(** * Lumina-T2I demo: the request/response harness of [demo.py] and the
      command-line tables of [entry_point.py]

    The development follows the two Python files of the repository:

    - [lumina_t2i/demo.py]: the worker process [model_main] (model loading,
      the start-up barrier, the request loop with its [try]/[except]), the
      argparse groups, and the front end [main] with its [on_submit] handler;
    - [lumina_t2i/entry_point.py]: the click option tables and commands.

    The machine-learning collaborators (tokenizer, language model, sampler,
    VAE, random generator) are external: they are the fields of the class
    [Env], each able to raise any Python exception.  The processes ([main]
    and the workers it starts) run interleaved, one source block per step of
    the relation [step]. *)

From Stdlib Require Import List ZArith String Ascii Bool Lia QArith.
Import ListNotations.

#[local] Set Warnings "-register-all".

Local Open Scope string_scope.
Local Open Scope list_scope.
Local Open Scope Z_scope.

(* ================================================================== *)
(** * Python values, exceptions and results *)
(* ================================================================== *)

Module Py.

(** The exception classes that occur in the two files or that their
    built-ins raise.  [KeyboardInterrupt], [SystemExit] and [GeneratorExit]
    derive from [BaseException] only; [OtherException] stands for any further
    class, with the flag telling whether it derives from [Exception]. *)
Inductive exc_class : Type :=
| ValueError
| TypeError
| AttributeError
| IndexError
| KeyError
| ZeroDivisionError
| AssertionError
| RuntimeError
| NotImplementedError
| OSError
| KeyboardInterrupt
| SystemExit
| GeneratorExit
| OtherException (name : string) (derives_Exception : bool).

(** [isinstance(e, Exception)]: what a clause [except Exception:] catches. *)
Definition is_Exception (c : exc_class) : bool :=
  match c with
  | KeyboardInterrupt | SystemExit | GeneratorExit => false
  | OtherException _ d => d
  | _ => true
  end.

(** An exception object: its class and the arguments it was built with
    ([raise RuntimeError] has none). *)
Record exc : Type := mkExc { exc_cls : exc_class; exc_args : list string }.

Inductive result (A : Type) : Type :=
| Ok (a : A)
| Raise (e : exc).
Arguments Ok {A} a.
Arguments Raise {A} e.

Definition rbind {A B} (r : result A) (k : A -> result B) : result B :=
  match r with
  | Ok a => k a
  | Raise e => Raise e
  end.

(** An image produced by [to_pil_image]; its pixels belong to the external
    framework, so an image is identified by an opaque number. *)
Record image : Type := mkImage { image_id : Z }.

(** The Python objects that travel through the UI and the two queues. *)
Inductive value : Type :=
| VNone
| VBool (b : bool)
| VInt (n : Z)
| VFloat (q : Q)
| VStr (s : string)
| VTuple (items : list value)
| VImage (img : image)
| VModelFailure.   (* an instance of [class ModelFailure: pass] *)

(** [isinstance(result, ModelFailure)] *)
Definition isinstance_ModelFailure (v : value) : bool :=
  match v with
  | VModelFailure => true
  | _ => false
  end.

(** Truthiness, as [if proportional_attn:] uses it. *)
Definition truthy (v : value) : bool :=
  match v with
  | VNone => false
  | VBool b => b
  | VInt n => negb (Z.eqb n 0)
  | VFloat q => negb (Z.eqb (Qnum q) 0)
  | VStr s => negb (String.eqb s "")
  | VTuple l => match l with [] => false | _ => true end
  | VImage _ => true
  | VModelFailure => true
  end.

(** ** Strings *)

(** [s.split(sep)] for a one-character separator: every occurrence cuts, empty
    pieces are kept, and the result is never empty. *)
Fixpoint split (sep : ascii) (s : string) : list string :=
  match s with
  | EmptyString => [EmptyString]
  | String c rest =>
      if Ascii.eqb c sep then EmptyString :: split sep rest
      else match split sep rest with
           | [] => [String c EmptyString]
           | piece :: pieces => String c piece :: pieces
           end
  end.

(** [l[-1]] *)
Definition index_last {A} (l : list A) : result A :=
  match rev l with
  | [] => Raise (mkExc IndexError ["list index out of range"])
  | x :: _ => Ok x
  end.

(** The ASCII characters that [str.strip()], and so [int(str)], treat as
    white space: 9..13, 28..31 and 32. *)
Definition is_space (c : ascii) : bool :=
  let n := nat_of_ascii c in
  ((9 <=? n) && (n <=? 13) || (28 <=? n) && (n <=? 31) || (n =? 32))%nat.

Fixpoint lstrip (s : string) : string :=
  match s with
  | String c rest => if is_space c then lstrip rest else s
  | EmptyString => EmptyString
  end.

Fixpoint rstrip (s : string) : string :=
  match s with
  | EmptyString => EmptyString
  | String c rest =>
      match rstrip rest with
      | EmptyString => if is_space c then EmptyString else String c EmptyString
      | r => String c r
      end
  end.

Definition strip (s : string) : string := rstrip (lstrip s).

Definition digit_of (c : ascii) : option Z :=
  let n := nat_of_ascii c in
  if ((48 <=? n) && (n <=? 57))%nat then Some (Z.of_nat n - 48) else None.

(** Decimal digits with single underscores allowed between digits, as the
    integer literal grammar of [int(str)] has it.  [prev_digit] tells whether
    the character before was a digit (an underscore must follow one and be
    followed by one). *)
Fixpoint digits_value (s : string) (acc : Z) (prev_digit : bool) : option Z :=
  match s with
  | EmptyString => if prev_digit then Some acc else None
  | String c rest =>
      match digit_of c with
      | Some d => digits_value rest (10 * acc + d) true
      | None =>
          if Ascii.eqb c "_"%char && prev_digit then digits_value rest acc false
          else None
      end
  end.

Definition invalid_literal (s : string) : exc :=
  mkExc ValueError ["invalid literal for int() with base 10"; s].

(** [int(s)] for a string [s]. *)
Definition int_of_string (s : string) : result Z :=
  let body := strip s in
  let parsed :=
    match body with
    | String "-"%char rest => option_map Z.opp (digits_value rest 0 false)
    | String "+"%char rest => digits_value rest 0 false
    | _ => digits_value body 0 false
    end in
  match parsed with
  | Some n => Ok n
  | None => Raise (invalid_literal s)
  end.

(** [int(v)]: integers are kept, booleans count as 0 and 1, floats are
    truncated towards zero, strings are parsed. *)
Definition int (v : value) : result Z :=
  match v with
  | VInt n => Ok n
  | VBool b => Ok (if b then 1 else 0)
  | VFloat q => Ok (Z.quot (Qnum q) (Zpos (Qden q)))
  | VStr s => int_of_string s
  | _ => Raise (mkExc TypeError ["int() argument must be a string or a number"])
  end.

End Py.

Import Py.

(* ================================================================== *)
(** * Tensors *)
(* ================================================================== *)

Module Tensor.

(** A tensor is a shape and its elements in row-major order.  The element
    type belongs to the external framework. *)
Record t (F : Type) : Type := mk { shape : list Z; data : list F }.
Arguments mk {F} shape data.
Arguments shape {F} _.
Arguments data {F} _.

Definition numel (dims : list Z) : Z := fold_right Z.mul 1 dims.

(** [x.repeat(k, 1, 1, 1)] on a tensor whose first dimension is the batch. *)
Definition repeat_batch {F} (k : nat) (x : t F) : t F :=
  match shape x with
  | b :: rest => mk (Z.of_nat k * b :: rest) (List.concat (repeat (data x) k))
  | [] => x
  end.

(** [x[:k]]: the first [k] entries along the batch dimension. *)
Definition take_batch {F} (k : Z) (x : t F) : t F :=
  match shape x with
  | b :: rest =>
      let n := Z.min k b in
      mk (n :: rest) (firstn (Z.to_nat (n * numel rest)) (data x))
  | [] => x
  end.

Definition map {F} (f : F -> F) (x : t F) : t F :=
  mk (shape x) (List.map f (data x)).

(** [torch.zeros([2, cols])] as two rows. *)
Definition zeros (cols : nat) : list (list Z) := [repeat 0 cols; repeat 0 cols].

(** [torch.zeros_like(tok, dtype=torch.bool)] *)
Definition zeros_like_bool (tok : list (list Z)) : list (list bool) :=
  List.map (fun row => repeat false (List.length row)) tok.

Definition shape_mismatch : exc :=
  mkExc RuntimeError ["shape mismatch in slice assignment"].

(** The row update of [tok[r, :n] = torch.tensor(src)]: the slice [:n] is
    clipped to the row, the source must have the slice's length, or one
    element, which is then broadcast. *)
Definition set_prefix {A} (n : nat) (src : list A) (row : list A)
  : result (list A) :=
  let k := Nat.min n (List.length row) in
  if Nat.eqb (List.length src) k then Ok (src ++ skipn k row)
  else match src with
       | [x] => Ok (repeat x k ++ skipn k row)
       | _ => Raise shape_mismatch
       end.

(** The row update of [tok_mask[r, :n] = True]. *)
Definition fill_prefix {A} (n : nat) (x : A) (row : list A) : result (list A) :=
  let k := Nat.min n (List.length row) in
  Ok (repeat x k ++ skipn k row).

(** Apply a row update at row [r]; a row that is not there is an
    [IndexError]. *)
Fixpoint update_row {A} (rows : list (list A)) (r : nat)
    (f : list A -> result (list A)) : result (list (list A)) :=
  match rows, r with
  | [], _ => Raise (mkExc IndexError ["index out of bounds for dimension 0"])
  | row :: rest, O => rbind (f row) (fun row' => Ok (row' :: rest))
  | row :: rest, S r' => rbind (update_row rest r' f) (fun rest' => Ok (row :: rest'))
  end.

End Tensor.

(* ================================================================== *)
(** * Command-line arguments and checkpoint arguments *)
(* ================================================================== *)

(** What [parser.parse_known_args()[0]] holds in [demo.py]: the four flags of
    [main] and those of the transport and ODE groups. *)
Record Args : Type := mkArgs {
  num_gpus : Z;
  ckpt : string;
  ema : bool;
  precision : string;
  path_type : value;
  prediction : value;
  loss_weight : value;
  sample_eps : value;
  train_eps : value;
  atol : value;
  rtol : value;
  reverse : value;
  likelihood : value
}.

(** The fields of [model_args.pth] that [model_main] reads. *)
Record TrainArgs : Type := mkTrainArgs {
  lm : string;
  tokenizer_path : string;
  vae : string;
  model : string;
  qk_norm : bool;
  image_size : Z;
  model_parallel_size : Z
}.

Inductive dtype : Type := bfloat16 | float16 | float32.

(** [{"bf16": ..., "fp16": ..., "fp32": ...}[args.precision]] *)
Definition dtype_of_precision (p : string) : result dtype :=
  if String.eqb p "bf16" then Ok bfloat16
  else if String.eqb p "fp16" then Ok float16
  else if String.eqb p "fp32" then Ok float32
  else Raise (mkExc KeyError [p]).

(** The nine parameters of a request, in the order of the unpacking at the
    top of the worker loop. *)
Record Request : Type := mkRequest {
  cap : value;
  resolution : value;
  num_sampling_steps : value;
  cfg_scale : value;
  solver : value;
  t_shift : value;
  seed : value;
  ntk_scaling : value;
  proportional_attn : value
}.

(** The items of an iterable, for a tuple unpacking. *)
Definition iter_items (v : value) : result (list value) :=
  match v with
  | VTuple items => Ok items
  | VStr s => Ok (List.map (fun c => VStr (String c EmptyString)) (list_ascii_of_string s))
  | _ => Raise (mkExc TypeError ["cannot unpack non-iterable object"])
  end.

(** [(cap, resolution, num_sampling_steps, cfg_scale, solver, t_shift, seed,
      ntk_scaling, proportional_attn) = item] *)
Definition unpack_request (item : value) : result Request :=
  rbind (iter_items item) (fun items =>
    match items with
    | [a1; a2; a3; a4; a5; a6; a7; a8; a9] =>
        Ok (mkRequest a1 a2 a3 a4 a5 a6 a7 a8 a9)
    | _ =>
        Raise (mkExc ValueError
                 [if (List.length items <? 9)%nat
                  then "not enough values to unpack (expected 9)"
                  else "too many values to unpack (expected 9)"])
    end).

(** [resolution.split(" ")[-1]], then [w, h = resolution.split("x")] and
    [w, h = int(w), int(h)]. *)
Definition last_space_token (s : string) : result string :=
  index_last (split " " s).

Definition parse_resolution (resolution : value) : result (Z * Z) :=
  match resolution with
  | VStr s =>
      rbind (last_space_token s) (fun token =>
        match split "x" token with
        | [w; h] =>
            rbind (int_of_string w) (fun w =>
              rbind (int_of_string h) (fun h => Ok (w, h)))
        | pieces =>
            Raise (mkExc ValueError
                     [if (List.length pieces <? 2)%nat
                      then "not enough values to unpack (expected 2)"
                      else "too many values to unpack (expected 2)"])
        end)
  | _ => Raise (mkExc AttributeError ["object has no attribute 'split'"])
  end.

(* ================================================================== *)
(** * The command-line tables of [demo.py] and [entry_point.py] *)
(* ================================================================== *)

Module Cli.

(** The default of a flag.  A float default is kept as the literal of the
    source ([1e-6], [0.04]); a flag declared with [action="store_true"] or
    [is_flag=True] defaults to [False]; a flag declared with no default
    defaults to [None]. *)
Inductive default : Type :=
| DNone
| DFalse
| DInt (n : Z)
| DStr (s : string)
| DFloat (literal : string).

(** One [add_argument] or [click.option] call: every name it declares, the
    permitted choices when it restricts them ([None] is a choice of
    [--loss-weight] and [--last-step]), and the default. *)
Record flag : Type := mkFlag {
  names : list string;
  choices : option (list (option string));
  dflt : default
}.

(** The long name: the one that starts with two dashes. *)
Definition is_long (n : string) : bool := String.prefix "--" n.

Definition long_names (f : flag) : list string := filter is_long (names f).

(** ** [demo.py]: the argparse groups *)

Definition parse_transport_args : list flag :=
  [ mkFlag ["--path-type"] (Some [Some "Linear"; Some "GVP"; Some "VP"]) (DStr "Linear");
    mkFlag ["--prediction"] (Some [Some "velocity"; Some "score"; Some "noise"]) (DStr "velocity");
    mkFlag ["--loss-weight"] (Some [None; Some "velocity"; Some "likelihood"]) DNone;
    mkFlag ["--sample-eps"] None DNone;
    mkFlag ["--train-eps"] None DNone ].

Definition parse_ode_args : list flag :=
  [ mkFlag ["--atol"] None (DFloat "1e-6");
    mkFlag ["--rtol"] None (DFloat "1e-3");
    mkFlag ["--reverse"] None DFalse;
    mkFlag ["--likelihood"] None DFalse ].

Definition parse_sde_args : list flag :=
  [ mkFlag ["--sampling-method"] (Some [Some "Euler"; Some "Heun"]) (DStr "Euler");
    mkFlag ["--diffusion-form"]
           (Some [Some "constant"; Some "SBDM"; Some "sigma"; Some "linear";
                  Some "decreasing"; Some "increasing-decreasing"])
           (DStr "sigma");
    mkFlag ["--diffusion-norm"] None (DFloat "1.0");
    mkFlag ["--last-step"] (Some [None; Some "Mean"; Some "Tweedie"; Some "Euler"]) (DStr "Mean");
    mkFlag ["--last-step-size"] None (DFloat "0.04") ].

(** The parser of [main] in [demo.py]: its own four flags, then
    [parse_transport_args(parser)] and [parse_ode_args(parser)]. *)
Definition demo_parser : list flag :=
  [ mkFlag ["--num_gpus"] None (DInt 1);
    mkFlag ["--ckpt"] None DNone;
    mkFlag ["--ema"] None DFalse;
    mkFlag ["--precision"] (Some [Some "bf16"; Some "fp32"]) (DStr "bf16") ]
  ++ parse_transport_args ++ parse_ode_args.

(** ** [entry_point.py]: the click option lists *)

Definition global_options : list flag :=
  [ mkFlag ["--num_gpus"] None (DInt 1);
    mkFlag ["--ckpt"] None DNone;
    mkFlag ["--ema"] None DFalse;
    mkFlag ["--precision"] (Some [Some "bf16"; Some "fp32"]) (DStr "bf16");
    mkFlag ["-c"; "--config"] None (DStr "cofing/infer/settings.yaml");
    mkFlag ["--token"] None DFalse ].

Definition transport_options : list flag :=
  [ mkFlag ["--path-type"] (Some [Some "Linear"; Some "GVP"; Some "VP"]) (DStr "Linear");
    mkFlag ["--prediction"] (Some [Some "velocity"; Some "score"; Some "noise"]) (DStr "velocity");
    mkFlag ["--loss-weight"] (Some [None; Some "velocity"; Some "likelihood"]) DNone;
    mkFlag ["--sample-eps"] None DNone;
    mkFlag ["--train-eps"] None DNone ].

Definition ode_options : list flag :=
  [ mkFlag ["-a"; "--atol"] None (DFloat "1e-6");
    mkFlag ["-r"; "--rtol"] None (DFloat "1e-3");
    mkFlag ["--reverse"] None DFalse;
    mkFlag ["--likelihood"] None DFalse ].

Definition sde_options : list flag :=
  [ mkFlag ["--sampling-method"] (Some [Some "Euler"; Some "Heun"]) (DStr "Euler");
    mkFlag ["--diffusion-form"]
           (Some [Some "constant"; Some "SBDM"; Some "sigma"; Some "linear";
                  Some "decreasing"; Some "increasing-decreasing"])
           (DStr "sigma");
    mkFlag ["--diffusion-norm"] None (DFloat "1.0");
    mkFlag ["--last-step"] (Some [None; Some "Mean"; Some "Tweedie"; Some "Euler"]) (DStr "Mean");
    mkFlag ["--last-step-size"] None (DFloat "0.04") ].

(** A click command: the options its decorators attach, its positional
    arguments, and the parameters of the decorated function. *)
Record command : Type := mkCommand {
  cmd_name : string;
  cmd_options : list flag;
  cmd_arguments : list string;
  cmd_params : list string
}.

(** [@add_options(global_options)] over [infer] *)
Definition infer : command :=
  mkCommand "infer" global_options ["output_path"; "text"]
    ["num_gpus"; "ckpt"; "ema"; "precision"; "config"; "text"; "output_path"].

(** [@add_options(global_options)] over [infer_sde] *)
Definition infer_sde : command :=
  mkCommand "infer_sde" global_options ["text"]
    ["sampling_method"; "diffusion_form"; "diffusion_norm"; "last_step";
     "last_step_size"; "text"].

(** [@add_options(global_options)] and five [@click.option] lines over
    [transport] *)
Definition transport : command :=
  mkCommand "transport"
    (global_options ++
     [ mkFlag ["--path-type"] (Some [Some "Linear"; Some "GVP"; Some "VP"]) (DStr "Linear");
       mkFlag ["--prediction"] (Some [Some "velocity"; Some "score"; Some "noise"]) (DStr "velocity");
       mkFlag ["--loss-weight"] (Some [None; Some "velocity"; Some "likelihood"]) DNone;
       mkFlag ["--sample-eps"] None DNone;
       mkFlag ["--train-eps"] None DNone ])
    []
    ["path_type"; "prediction"; "loss_weight"; "sample_eps"; "train_eps"].

(** Whether a parser with these flags knows the name [n]. *)
Definition declares (flags : list flag) (n : string) : bool :=
  existsb (fun f => existsb (String.eqb n) (names f)) flags.

(** A command accepts a name on its command line when one of its options
    declares it; click refuses any other ("No such option"). *)
Definition accepts (c : command) (n : string) : bool :=
  declares (cmd_options c) n.

(** Two declarations mirror each other: the same long name, the same
    permitted choices, the same default. *)
Definition mirrors (a b : flag) : Prop :=
  long_names a = long_names b /\ choices a = choices b /\ dflt a = dflt b.

(** The name click gives the parameter of an option: the long name without
    its dashes, with [-] turned into [_]. *)
Fixpoint underscored (s : string) : string :=
  match s with
  | EmptyString => EmptyString
  | String c rest =>
      String (if Ascii.eqb c "-"%char then "_"%char else c) (underscored rest)
  end.

Definition param_name (f : flag) : string :=
  match long_names f with
  | n :: _ => underscored (String.substring 2 (String.length n - 2) n)
  | [] => EmptyString
  end.

(** ** The helpers of both files *)

(** [none_or_str], the [type=] of [--loss-weight] and [--last-step] in
    [demo.py], defined again in [entry_point.py]: the string [None] stands
    for the value [None]. *)
Definition none_or_str (value : string) : option string :=
  if String.eqb value "None" then None else Some value.

(** argparse converts the string given on the command line with the flag's
    [type] and then requires the value to be one of the [choices]. *)
Definition argparse_accepts (permitted : list (option string)) (given : string) : bool :=
  existsb (fun c =>
             match c, none_or_str given with
             | None, None => true
             | Some a, Some b => String.eqb a b
             | _, _ => false
             end)
          permitted.

(** [add_options(options)] of [entry_point.py]: the decorator that applies
    the options to a function, the last of the list first. *)
Definition add_options {Fn : Type} (options : list (Fn -> Fn)) (func : Fn) : Fn :=
  fold_left (fun func option => option func) (rev options) func.

(** The keyword arguments click calls the function of a command with: one
    per option, named after it, and one per argument. *)
Definition passed_keywords (c : command) : list string :=
  List.map param_name (cmd_options c) ++ cmd_arguments c.

(** The keywords of the call that the function has no parameter for: a
    Python call with one of these raises [TypeError]. *)
Definition unexpected_keywords (c : command) : list string :=
  filter (fun k => negb (existsb (String.eqb k) (cmd_params c))) (passed_keywords c).

(** The three commands of the group [entry_point]. *)
Definition commands : list command := [infer; infer_sde; transport].

(** The choices of the first flag of a parser that declares the name [n]
    (none when the flag is absent or takes any value). *)
Definition permitted (flags : list flag) (n : string) : list (option string) :=
  match find (fun f => existsb (String.eqb n) (names f)) flags with
  | Some f => match choices f with Some cs => cs | None => [] end
  | None => []
  end.

End Cli.

(** The keyword arguments of [model.forward_with_cfg]. *)
Record ModelKwargs (Feats : Type) : Type := mkKwargs {
  kw_cap_feats : Feats;
  kw_cap_mask : list (list bool);
  kw_cfg_scale : value;
  kw_base_seqlen : option Z;       (* set together with proportional_attn=True *)
  kw_ntk_factor : option Q
}.
Arguments mkKwargs {Feats} _ _ _ _ _.

(* ================================================================== *)
(** * The widgets of the UI *)
(* ================================================================== *)

Module UI.

(** The gradio components that [main] creates and wires. *)
Inductive component : Type :=
| cap | resolution | num_sampling_steps | cfg_scale | solver | t_shift | seed
| ntk_scaling | proportional_attn | output_img | submit_btn.

(** What each component currently holds. *)
Definition state : Type := component -> value.

(** [submit_btn.click(on_submit, [cap, resolution, ...], [output_img])] *)
Definition click_inputs : list component :=
  [cap; resolution; num_sampling_steps; cfg_scale; solver; t_shift; seed;
   ntk_scaling; proportional_attn].

Definition click_outputs : list component := [output_img].

(** On a click gradio calls the handler with the values of the input
    components, in the order of the list. *)
Definition click_args (ui : state) : list value := List.map ui click_inputs.

(** The choices of the resolution dropdown (lines 274-277). *)
Definition res_choices : list string :=
  ["1024x1024"; "512x2048"; "2048x512"] ++
  ["(Extrapolation) 1664x1664"; "(Extrapolation) 1024x2048";
   "(Extrapolation) 2048x1024"].

End UI.

(* ================================================================== *)
(** * The worker process: [model_main] *)
(* ================================================================== *)

(** The steps of model loading that are calls into the external framework,
    in source order. *)
Inductive load_stage : Type :=
| InitProcessGroup     (* dist.init_process_group("nccl") *)
| InitModelParallel    (* fs_init.initialize_model_parallel(args.num_gpus) *)
| SetDevice            (* torch.cuda.set_device(rank) *)
| LoadModelArgs        (* torch.load(.../model_args.pth) *)
| CreateLM             (* AutoModelForCausalLM.from_pretrained(...) *)
| CreateTokenizer      (* AutoTokenizer.from_pretrained(...) *)
| CreateVAE            (* AutoencoderKL.from_pretrained(...).cuda() *)
| CreateDiT            (* models.__dict__[train_args.model](...) *)
| LoadCheckpoint       (* torch.load(.../consolidated....pth) *)
| LoadStateDict.       (* model.load_state_dict(ckpt, strict=True) *)

(** What [print] writes. *)
Inductive printed : Type :=
| Text (s : string)
| Labelled (label : string) (v : value)     (* f"caption: {cap}" *)
| Traceback (e : exc).                      (* traceback.format_exc() *)

(** The observable effects of a worker, in the order they happen. *)
Inductive event : Type :=
| EvPrint (p : printed)
| EvStage (s : load_stage)
| EvManualSeed (s : Z)                      (* torch.random.manual_seed(s) *)
| EvRandn (dims : list Z).                  (* torch.randn(dims, device="cuda") *)

Declare Scope worker_scope.
Delimit Scope worker_scope with worker.

(** What model loading leaves for the request loop. *)
Record Loaded : Type := mkLoaded { l_train_args : TrainArgs; l_dtype : dtype }.

(** What a run of the demo is given: the parsed command line and the
    external collaborators.  Each collaborator returns a result, so that it
    can raise any exception. *)
Class Env : Type := mkEnv {
  Elem : Type;                     (* tensor elements *)
  GenState : Type;                 (* state of the global random generator *)
  SampleFn : Type;                 (* what [sampler.sample_ode] returns *)
  Feats : Type;                    (* caption features *)
  cast : dtype -> Elem -> Elem;                             (* [.to(dtype)] *)
  manual_seed : Z -> GenState;                              (* generator state after seeding *)
  randn_cuda : list Z -> GenState -> list Elem * GenState;  (* a draw and the state after it *)
  load_model_args : string -> result TrainArgs;
  run_stage : load_stage -> option exc;                     (* [Some e]: the call raises [e] *)
  create_sample_fn : Args -> value -> value -> value -> result SampleFn;
  tokenizer_encode : value -> result (list Z);
  lm_decoder : list (list Z) -> result Feats;
  run_sample_fn :
    SampleFn -> Tensor.t Elem -> ModelKwargs Feats -> result (list (Tensor.t Elem));
  (* [vae.decode(samples / factor).sample], the rescaling to [0, 1] and
     [to_pil_image(samples[0])] *)
  decode_to_image : string -> Tensor.t Elem -> result image;
  args : Args
}.

Section Demo.

Context `{env : Env}.

(** ** The state of a worker and its monad *)

Record wstate : Type := mkW { gen : GenState; trace : list event }.

Definition M (A : Type) : Type := wstate -> result A * wstate.

Definition ret {A} (a : A) : M A := fun st => (Ok a, st).

Definition bind {A B} (m : M A) (k : A -> M B) : M B :=
  fun st =>
    match m st with
    | (Ok a, st') => k a st'
    | (Raise e, st') => (Raise e, st')
    end.

Definition lift {A} (r : result A) : M A := fun st => (r, st).

Definition raise {A} (e : exc) : M A := fun st => (Raise e, st).

Definition emit (ev : event) : M unit :=
  fun st => (Ok tt, mkW (gen st) (trace st ++ [ev])).

Definition print (p : printed) : M unit := emit (EvPrint p).

Definition when (b : bool) (m : M unit) : M unit := if b then m else ret tt.

Notation "x <- m ;; k" := (bind m (fun x => k))
  (at level 61, m at next level, right associativity) : worker_scope.
Notation "' p <- m ;; k" := (bind m (fun x => match x with p => k end))
  (at level 61, p pattern, m at next level, right associativity) : worker_scope.
Notation "m ;;; k" := (bind m (fun _ => k))
  (at level 61, right associativity) : worker_scope.

Local Open Scope worker_scope.

Definition stage (s : load_stage) : M unit :=
  match run_stage s with
  | Some e => raise e
  | None => emit (EvStage s)
  end.

(** ** Model loading (the body of [model_main] before the barrier) *)

Definition model_main_load (rank : Z) : M Loaded :=
  stage InitProcessGroup ;;;
  stage InitModelParallel ;;;
  stage SetDevice ;;;
  train_args <- lift (load_model_args (ckpt args)) ;;
  emit (EvStage LoadModelArgs) ;;;
  when (rank =? 0) (print (Text "Loaded model arguments:")) ;;;
  when (rank =? 0) (print (Text ("Creating lm: " ++ lm train_args)%string)) ;;;
  dt <- lift (dtype_of_precision (precision args)) ;;
  stage CreateLM ;;;
  (if num_gpus args >? 1
   then raise (mkExc NotImplementedError ["Inference with >1 GPUs not yet supported"])
   else ret tt) ;;;
  stage CreateTokenizer ;;;
  when (rank =? 0) (print (Text ("Creating vae: " ++ vae train_args)%string)) ;;;
  stage CreateVAE ;;;
  when (rank =? 0) (print (Text ("Creating DiT: " ++ model train_args)%string)) ;;;
  stage CreateDiT ;;;
  (if model_parallel_size train_args =? num_gpus args
   then ret tt
   else raise (mkExc AssertionError [])) ;;;
  stage LoadCheckpoint ;;;
  stage LoadStateDict ;;;
  ret (mkLoaded train_args dt).

(** ** Handling one request (the body of the [try]) *)

(** [torch.random.manual_seed(s)] *)
Definition seed_generator (s : Z) : M unit :=
  fun st => (Ok tt, mkW (manual_seed s) (trace st ++ [EvManualSeed s])).

(** [torch.randn(dims, device="cuda")]: a negative dimension is refused. *)
Definition randn (dims : list Z) : M (Tensor.t Elem) :=
  fun st =>
    if existsb (fun d => d <? 0) dims
    then (Raise (mkExc RuntimeError ["Trying to create tensor with negative dimension"]), st)
    else let '(xs, g') := randn_cuda dims (gen st) in
         (Ok (Tensor.mk dims xs), mkW g' (trace st ++ [EvRandn dims])).

(** Lines 127-134: the resolution, the seed and the initial noise. *)
Definition draw_noise (ld : Loaded) (req : Request) : M (Z * Z * Tensor.t Elem) :=
  '(w, h) <- lift (parse_resolution (resolution req)) ;;
  let latent_w := w / 8 in
  let latent_h := h / 8 in
  s <- lift (int (seed req)) ;;
  when (negb (s =? 0)) (seed_generator s) ;;;
  z <- randn [1; 4; latent_h; latent_w] ;;
  let z := Tensor.map (cast (l_dtype ld)) z in
  let z := Tensor.repeat_batch 2 z in
  ret (w, h, z).

(** Lines 136-143: the token tensor and its mask. *)
Definition conditioning (caption : value)
  : result (list (list Z) * list (list bool)) :=
  rbind (tokenizer_encode caption) (fun cap_tok =>
  rbind (tokenizer_encode (VStr "")) (fun null_cap_tok =>
    let tok := Tensor.zeros (Nat.max (List.length cap_tok) (List.length null_cap_tok)) in
    let tok_mask := Tensor.zeros_like_bool tok in
    rbind (Tensor.update_row tok 0 (Tensor.set_prefix (List.length cap_tok) cap_tok)) (fun tok =>
    rbind (Tensor.update_row tok 1 (Tensor.set_prefix (List.length null_cap_tok) null_cap_tok)) (fun tok =>
    rbind (Tensor.update_row tok_mask 0 (Tensor.fill_prefix (List.length cap_tok) true)) (fun tok_mask =>
    rbind (Tensor.update_row tok_mask 1 (Tensor.fill_prefix (List.length null_cap_tok) true)) (fun tok_mask =>
      Ok (tok, tok_mask))))))).

(** Lines 147-154: the keyword arguments of the model. *)
Definition build_kwargs (ld : Loaded) (req : Request) (w h : Z)
    (cap_feats : Feats) (tok_mask : list (list bool)) : result (ModelKwargs Feats) :=
  let size16 := image_size (l_train_args ld) / 16 in
  let base_seqlen :=
    if truthy (proportional_attn req)
    then Some (size16 ^ 2 + size16 * 2) else None in
  if truthy (ntk_scaling req) then
    if size16 ^ 2 =? 0
    then Raise (mkExc ZeroDivisionError ["division by zero"])
    else Ok (mkKwargs cap_feats tok_mask (cfg_scale req) base_seqlen
               (Some (Qmake ((w / 16) * (h / 16)) (Z.to_pos (size16 ^ 2)))))
  else Ok (mkKwargs cap_feats tok_mask (cfg_scale req) base_seqlen None).

Definition vae_factor (ld : Loaded) : string :=
  if String.eqb (vae (l_train_args ld)) "sdxl" then "0.13025" else "0.18215".

(** Lines 107-169: from [create_transport] to [to_pil_image]. *)
Definition handle_request (ld : Loaded) (rank : Z) (req : Request) : M image :=
  sample_fn <- lift (create_sample_fn args (solver req) (num_sampling_steps req) (t_shift req)) ;;
  '(w, h, z) <- draw_noise ld req ;;
  '(tok, tok_mask) <- lift (conditioning (cap req)) ;;
  cap_feats <- lift (lm_decoder tok) ;;
  model_kwargs <- lift (build_kwargs ld req w h cap_feats tok_mask) ;;
  when (rank =? 0)
    (print (Labelled "caption: " (cap req)) ;;;
     print (Labelled "num_sampling_steps: " (num_sampling_steps req)) ;;;
     print (Labelled "cfg_scale: " (cfg_scale req))) ;;;
  trajectory <- lift (run_sample_fn sample_fn z model_kwargs) ;;
  samples <- lift (index_last trajectory) ;;
  let samples := Tensor.take_batch 1 samples in
  print (Text ("vae factor: " ++ vae_factor ld)%string) ;;;
  lift (decode_to_image (vae_factor ld) samples).

(** ** One turn of [while True] *)

(** How a turn of the loop ends: back at [request_queue.get()], or with an
    exception that leaves [model_main] and ends the process. *)
Inductive turn_end : Type :=
| NextRequest
| Terminated (e : exc).

Definition none_has_no_put : exc :=
  mkExc AttributeError ["'NoneType' object has no attribute 'put'"].

(** [item] is what [request_queue.get()] returned; [response_queue] is [None]
    for every rank but 0.  The unpacking stands before the [try]; the [put]
    of the image is guarded by [response_queue is not None], the one of the
    handler is not. *)
Definition loop_turn (ld : Loaded) (rank : Z) (item : value)
    (response_queue : option (list value)) (st : wstate)
  : turn_end * option (list value) * wstate :=
  match unpack_request item with
  | Raise e => (Terminated e, response_queue, st)
  | Ok req =>
      match handle_request ld rank req st with
      | (Ok img, st') =>
          (NextRequest, option_map (fun q => q ++ [VImage img]) response_queue, st')
      | (Raise e, st') =>
          if is_Exception (exc_cls e) then
            let st'' := mkW (gen st') (trace st' ++ [EvPrint (Traceback e)]) in
            match response_queue with
            | Some q => (NextRequest, Some (q ++ [VModelFailure]), st'')
            | None => (Terminated none_has_no_put, None, st'')
            end
          else (Terminated e, response_queue, st')
      end
  end.

(* ================================================================== *)
(** * The front end: [main] and [on_submit] *)
(* ================================================================== *)

(** [if args.num_gpus != 1: raise NotImplementedError(...)] *)
Definition main_guard : result unit :=
  if num_gpus args =? 1 then Ok tt
  else Raise (mkExc NotImplementedError ["Multi-GPU Inference is not yet supported"]).

(** [response_queue if i == 0 else None] *)
Definition gets_response_queue (i : Z) : bool := i =? 0.

(** [for q in request_queues: q.put(args)] *)
Definition put_all (item : value) (request_queues : list (list value))
  : list (list value) :=
  List.map (fun q => q ++ [item]) request_queues.

(** [queue.get()] with no timeout: [None] stands for a call that blocks. *)
Definition queue_get (q : list value) : option (value * list value) :=
  match q with
  | [] => None
  | item :: rest => Some (item, rest)
  end.

(** The end of [on_submit], once [response_queue.get()] has returned. *)
Definition on_submit_result (result : value) : Py.result value :=
  if isinstance_ModelFailure result then Raise (mkExc RuntimeError [])
  else Ok result.

(** [on_submit] run against the queues as they are: the requests are
    put, then the response queue is read.  [None] as outcome: the call is
    blocked in [response_queue.get()]. *)
Definition on_submit (submitted : list value)
    (request_queues : list (list value)) (response_queue : list value)
  : option (Py.result value) * list (list value) * list value :=
  let request_queues := put_all (VTuple submitted) request_queues in
  match queue_get response_queue with
  | None => (None, request_queues, response_queue)
  | Some (result, rest) => (Some (on_submit_result result), request_queues, rest)
  end.

(* ================================================================== *)
(** * The processes together *)
(* ================================================================== *)

(** [mp.Barrier(parties)]: [wait()] counts the caller in, and the call that
    makes the count reach [parties] releases every waiter. *)
Record barrier : Type := mkBarrier {
  parties : Z;
  n_waiting : Z;
  released : bool
}.

Definition barrier_arrive (b : barrier) : barrier :=
  mkBarrier (parties b) (n_waiting b + 1)
            (released b || (n_waiting b + 1 =? parties b)).

(** Where a worker stands in [model_main]. *)
Inductive worker_pc : Type :=
| WLoading                                  (* lines 24-96 *)
| WAtBarrier (ld : Loaded)                  (* inside [mp_barrier.wait()], line 98 *)
| WIdle (ld : Loaded)                       (* at [request_queue.get()] *)
| WBusy (ld : Loaded) (item : value)        (* between [get] and the end of the turn *)
| WLoadFailed (e : exc)                     (* an exception left [model_main] while loading *)
| WTerminated (e : exc).                    (* an exception left the request loop *)

Record worker : Type := mkWorker {
  w_rank : Z;
  w_pc : worker_pc;
  w_requests : list value;                  (* request_queues[rank] *)
  w_state : wstate
}.

(** Where the front end stands in [main].  The front end is one
    submission path: the UI runs one [on_submit] at a time. *)
Inductive fe_pc : Type :=
| FStart                                    (* before the check of [num_gpus] *)
| FSpawn (i : Z)                            (* in the loop that starts the workers *)
| FAtBarrier                                (* inside [mp_barrier.wait()], line 357 *)
| FServing                                  (* the UI is launched, no [on_submit] is running *)
| FInSubmit                                 (* [on_submit] is at [response_queue.get()] *)
| FRaised (e : exc).

Record sys : Type := mkSys {
  fe : fe_pc;
  workers : list worker;
  response_queue : list value;
  mp_barrier : barrier
}.

Definition initial : sys := mkSys FStart [] [] (mkBarrier 0 0 false).

Inductive label : Type :=
| LReject (e : exc)
| LSetup
| LStartWorker (i : Z)
| LFrontWait
| LLaunch
| LSubmit (submitted : list value)
| LReturn (outcome : Py.result value)
| LLoaded (i : nat)
| LLoadFailed (i : nat)
| LEnterLoop (i : nat)
| LGet (i : nat)
| LTurn (i : nat).

Definition set_pc (w : worker) (pc : worker_pc) : worker :=
  mkWorker (w_rank w) pc (w_requests w) (w_state w).

Inductive step : sys -> label -> sys -> Prop :=
(* main, lines 239-240 *)
| step_reject : forall s e,
    fe s = FStart -> main_guard = Raise e ->
    step s (LReject e) (mkSys (FRaised e) (workers s) (response_queue s) (mp_barrier s))
(* main, lines 242-247: the queues and the barrier *)
| step_setup : forall s,
    fe s = FStart -> main_guard = Ok tt ->
    step s LSetup (mkSys (FSpawn 0) (workers s) [] (mkBarrier (num_gpus args + 1) 0 false))
(* main, lines 248-253: one queue and one process per rank; the new process
   starts with a generator state of its own *)
| step_start_worker : forall s i g,
    fe s = FSpawn i -> i < num_gpus args ->
    step s (LStartWorker i)
         (mkSys (FSpawn (i + 1))
                (workers s ++ [mkWorker i WLoading [] (mkW g [])])
                (response_queue s) (mp_barrier s))
(* main, lines 255-357: the UI is built, then [mp_barrier.wait()] *)
| step_front_wait : forall s i,
    fe s = FSpawn i -> num_gpus args <= i ->
    step s LFrontWait
         (mkSys FAtBarrier (workers s) (response_queue s) (barrier_arrive (mp_barrier s)))
(* main, lines 358-360 *)
| step_launch : forall s,
    fe s = FAtBarrier -> released (mp_barrier s) = true ->
    step s LLaunch (mkSys FServing (workers s) (response_queue s) (mp_barrier s))
(* a click on [submit_btn] (lines 351-355) runs on_submit, lines 344-345,
   on the values of the nine inputs *)
| step_submit : forall s ui,
    fe s = FServing ->
    step s (LSubmit (UI.click_args ui))
         (mkSys FInSubmit
                (List.map (fun w => mkWorker (w_rank w) (w_pc w)
                                      (w_requests w ++ [VTuple (UI.click_args ui)])
                                      (w_state w))
                          (workers s))
                (response_queue s) (mp_barrier s))
(* on_submit, lines 346-349 *)
| step_return : forall s result rest,
    fe s = FInSubmit -> queue_get (response_queue s) = Some (result, rest) ->
    step s (LReturn (on_submit_result result))
         (mkSys FServing (workers s) rest (mp_barrier s))
(* model_main, lines 24-98: loading succeeds, the worker calls [wait()] *)
| step_loaded : forall s pre w post ld st',
    workers s = pre ++ w :: post -> w_pc w = WLoading ->
    model_main_load (w_rank w) (w_state w) = (Ok ld, st') ->
    step s (LLoaded (List.length pre))
         (mkSys (fe s)
                (pre ++ mkWorker (w_rank w) (WAtBarrier ld) (w_requests w) st' :: post)
                (response_queue s) (barrier_arrive (mp_barrier s)))
| step_load_failed : forall s pre w post e st',
    workers s = pre ++ w :: post -> w_pc w = WLoading ->
    model_main_load (w_rank w) (w_state w) = (Raise e, st') ->
    step s (LLoadFailed (List.length pre))
         (mkSys (fe s)
                (pre ++ mkWorker (w_rank w) (WLoadFailed e) (w_requests w) st' :: post)
                (response_queue s) (mp_barrier s))
(* model_main, lines 98-101: the barrier lets the worker into its loop *)
| step_enter_loop : forall s pre w post ld,
    workers s = pre ++ w :: post -> w_pc w = WAtBarrier ld ->
    released (mp_barrier s) = true ->
    step s (LEnterLoop (List.length pre))
         (mkSys (fe s) (pre ++ set_pc w (WIdle ld) :: post)
                (response_queue s) (mp_barrier s))
(* model_main, line 104: [request_queue.get()] returns *)
| step_get : forall s pre w post ld item rest,
    workers s = pre ++ w :: post -> w_pc w = WIdle ld ->
    queue_get (w_requests w) = Some (item, rest) ->
    step s (LGet (List.length pre))
         (mkSys (fe s)
                (pre ++ mkWorker (w_rank w) (WBusy ld item) rest (w_state w) :: post)
                (response_queue s) (mp_barrier s))
(* model_main, lines 102-176: the rest of the turn *)
| step_turn : forall s pre w post ld item ending rq' st',
    workers s = pre ++ w :: post -> w_pc w = WBusy ld item ->
    loop_turn ld (w_rank w) item
              (if gets_response_queue (w_rank w) then Some (response_queue s) else None)
              (w_state w) = (ending, rq', st') ->
    step s (LTurn (List.length pre))
         (mkSys (fe s)
                (pre ++ mkWorker (w_rank w)
                          (match ending with
                           | NextRequest => WIdle ld
                           | Terminated e => WTerminated e
                           end)
                          (w_requests w) st' :: post)
                (match rq' with Some q => q | None => response_queue s end)
                (mp_barrier s)).

(** The states the processes can be in, from the start of [main]. *)
Inductive reachable : sys -> Prop :=
| reachable_initial : reachable initial
| reachable_step : forall s l s', reachable s -> step s l s' -> reachable s'.

(* ================================================================== *)
(** * Statements about the worker *)
(* ================================================================== *)

(** A row of tokens followed by zeros up to [width]. *)
Definition padded (tokens : list Z) (width : nat) : list Z :=
  tokens ++ repeat 0 (width - List.length tokens).

(** A row of the mask: [n] positions set, the rest clear. *)
Definition mask_row (n width : nat) : list bool :=
  repeat true n ++ repeat false (width - n).




(** Following the words of the specification on the resolution: the pieces between
    white-space characters, the non-empty ones being the tokens (what
    [str.split()] without a separator returns). *)
Fixpoint whitespace_pieces (s : string) : list string :=
  match s with
  | EmptyString => [EmptyString]
  | String c rest =>
      if is_space c then EmptyString :: whitespace_pieces rest
      else match whitespace_pieces rest with
           | [] => [String c EmptyString]
           | piece :: pieces => String c piece :: pieces
           end
  end.

Definition last_whitespace_token (s : string) : result string :=
  index_last (filter (fun piece => negb (String.eqb piece "")) (whitespace_pieces s)).


(** The trace of [model_main] up to the creation of the language model. *)
Definition trace_until_lm (rank : Z) (ta : TrainArgs) : list event :=
  [EvStage InitProcessGroup; EvStage InitModelParallel; EvStage SetDevice;
   EvStage LoadModelArgs]
  ++ (if rank =? 0
      then [EvPrint (Text "Loaded model arguments:");
            EvPrint (Text ("Creating lm: " ++ lm ta)%string)]
      else [])
  ++ [EvStage CreateLM].

(** ** Where the processes stand *)

(** The worker has called [mp_barrier.wait()]: it is past line 96, its model
    is loaded. *)
Definition arrived (w : worker) : bool :=
  match w_pc w with
  | WLoading | WLoadFailed _ => false
  | WAtBarrier _ | WIdle _ | WBusy _ _ | WTerminated _ => true
  end.

(** The worker has left [mp_barrier.wait()] and entered [while True]. *)
Definition in_loop (w : worker) : bool :=
  match w_pc w with
  | WIdle _ | WBusy _ _ | WTerminated _ => true
  | WLoading | WLoadFailed _ | WAtBarrier _ => false
  end.

Definition busy (w : worker) : bool :=
  match w_pc w with
  | WBusy _ _ => true
  | _ => false
  end.

(** The requests a worker has been sent and has not finished: those waiting
    in its queue and the one it is handling. *)
Definition in_flight (w : worker) : nat :=
  (List.length (w_requests w) + (if busy w then 1 else 0))%nat.

(** The front end has called [mp_barrier.wait()] (line 357). *)
Definition front_arrived (pc : fe_pc) : bool :=
  match pc with
  | FAtBarrier | FServing | FInSubmit => true
  | FStart | FSpawn _ | FRaised _ => false
  end.

(** The front end has launched the UI (line 358). *)
Definition front_launched (pc : fe_pc) : bool :=
  match pc with
  | FServing | FInSubmit => true
  | _ => false
  end.

Definition count_arrived (ws : list worker) : Z :=
  fold_right (fun w n => (if arrived w then 1 else 0) + n) 0 ws.

(** The request is the tuple that a click has sent. *)
Definition click_tuple (item : value) : Prop :=
  exists ui, item = VTuple (UI.click_args ui).

(** What holds of the requests along a run: those waiting in a queue and
    the one a worker has in hand are tuples sent by clicks. *)
Definition requests_inv (s : sys) : Prop :=
  Forall (fun w =>
            Forall click_tuple (w_requests w) /\
            match w_pc w with
            | WBusy _ item => click_tuple item
            | _ => True
            end)
         (workers s).

(** What holds of the barrier along a run. *)
Definition startup_inv (s : sys) : Prop :=
  match fe s with
  | FStart | FRaised _ => workers s = []
  | pc =>
      num_gpus args = 1 /\
      parties (mp_barrier s) = num_gpus args + 1 /\
      n_waiting (mp_barrier s)
      = count_arrived (workers s) + (if front_arrived pc then 1 else 0) /\
      released (mp_barrier s) = (n_waiting (mp_barrier s) =? parties (mp_barrier s)) /\
      Z.of_nat (List.length (workers s)) <= num_gpus args /\
      (forall i, pc = FSpawn i -> i = Z.of_nat (List.length (workers s))) /\
      (front_arrived pc = true -> Z.of_nat (List.length (workers s)) = num_gpus args) /\
      (front_launched pc = true -> released (mp_barrier s) = true) /\
      Forall (fun w => in_loop w = true -> released (mp_barrier s) = true) (workers s) /\
      Forall (fun w => w_rank w = 0) (workers s)
  end.

(** What holds of the queues along a run. *)
Definition flight_inv (s : sys) : Prop :=
  match fe s with
  | FInSubmit =>
      Forall (fun w => (in_flight w + List.length (response_queue s) <= 1)%nat) (workers s) /\
      (List.length (response_queue s) <= 1)%nat
  | _ =>
      Forall (fun w => in_flight w = 0%nat) (workers s) /\ response_queue s = []
  end.

(** The trace of [model_main] from the creation of the tokenizer to that of
    the DiT, and the trace of a whole successful loading. *)
Definition trace_until_dit (rank : Z) (ta : TrainArgs) : list event :=
  trace_until_lm rank ta
  ++ [EvStage CreateTokenizer]
  ++ (if rank =? 0 then [EvPrint (Text ("Creating vae: " ++ vae ta)%string)] else [])
  ++ [EvStage CreateVAE]
  ++ (if rank =? 0 then [EvPrint (Text ("Creating DiT: " ++ model ta)%string)] else [])
  ++ [EvStage CreateDiT].


(** The stages of [model_main] before the assertion on
    [model_parallel_size]. *)
Definition stages_until_dit : list load_stage :=
  [InitProcessGroup; InitModelParallel; SetDevice; CreateLM; CreateTokenizer;
   CreateVAE; CreateDiT].

(** ** Further notions on a run *)

(** The worker process has ended inside its request loop. *)
Definition terminated (w : worker) : bool :=
  match w_pc w with
  | WTerminated _ => true
  | _ => false
  end.

(** The worker process has ended while loading its model. *)
Definition load_failed (w : worker) : bool :=
  match w_pc w with
  | WLoadFailed _ => true
  | _ => false
  end.

(** Several steps in a row. *)
Inductive run : sys -> sys -> Prop :=
| run_here : forall s, run s s
| run_step : forall s l s' s'', step s l s' -> run s' s'' -> run s s''.

(** What holds of a pending submission along a run: while [on_submit]
    waits, a worker that has not terminated has the request or its answer
    is on the response queue; a worker only terminates under a waiting
    [on_submit], with nothing left on the queues. *)
Definition answer_inv (s : sys) : Prop :=
  Forall (fun w =>
            match fe s with
            | FInSubmit =>
                (terminated w = true /\ w_requests w = [] /\ response_queue s = []) \/
                (terminated w = false /\
                 (in_flight w + List.length (response_queue s) = 1)%nat)
            | _ => terminated w = false
            end)
         (workers s).

(** How far a pending submission is from its answer: 0 when the answer is on
    the response queue, else 1 when the worker handles the request, 2 when it
    is about to take it, 3 when it is still at the barrier. *)
Definition distance (s : sys) : nat :=
  match response_queue s with
  | _ :: _ => 0%nat
  | [] =>
      match workers s with
      | w :: _ =>
          match w_pc w with
          | WBusy _ _ => 1%nat
          | WIdle _ => 2%nat
          | _ => 3%nat
          end
      | [] => 3%nat
      end
  end.

End Demo.

(* ================================================================== *)
(** * A small instance of the external collaborators

    Integers stand for tensor elements and for the state of the random
    generator: seeding with [s] sets the state to [s], a draw fills the
    tensor with the state and advances it by one.  The tokenizer maps each
    character to its code between a begin marker 1 and an end marker 2. *)
(* ================================================================== *)

Module Toy.

Definition cast (_ : dtype) (x : Z) : Z := x.
Definition manual_seed (s : Z) : Z := s.
Definition randn_cuda (dims : list Z) (g : Z) : list Z * Z :=
  (repeat g (Z.to_nat (Tensor.numel dims)), g + 1).
Definition train_args : TrainArgs :=
  mkTrainArgs "lm" "tokenizer" "sdxl" "DiT_Llama" true 1024 1.
Definition load_model_args (_ : string) : result TrainArgs := Ok train_args.
Definition run_stage (_ : load_stage) : option exc := None.
Definition create_sample_fn (_ : Args) (_ _ _ : value) : result unit := Ok tt.
Definition tokenizer_encode (v : value) : result (list Z) :=
  match v with
  | VStr s =>
      Ok (1 :: List.map (fun c => Z.of_nat (nat_of_ascii c)) (list_ascii_of_string s) ++ [2])
  | _ => Raise (mkExc TypeError ["text input must be of type str"])
  end.
Definition lm_decoder (_ : list (list Z)) : result unit := Ok tt.
Definition run_sample_fn (_ : unit) (z : Tensor.t Z) (_ : ModelKwargs unit)
  : result (list (Tensor.t Z)) := Ok [z].
Definition decode_to_image (_ : string) (x : Tensor.t Z) : result image :=
  Ok (mkImage (Z.of_nat (List.length (Tensor.data x)))).

(** A sampler set-up interrupted from outside (Ctrl-C reaches the worker). *)
Definition interrupted_create_sample_fn (_ : Args) (_ _ _ : value) : result unit :=
  Raise (mkExc KeyboardInterrupt []).

(** A sampler set-up that fails with an ordinary error. *)
Definition failing_create_sample_fn (_ : Args) (_ _ _ : value) : result unit :=
  Raise (mkExc ValueError ["unknown solver"]).

Definition cli_args (n : Z) : Args :=
  mkArgs n "ckpt" false "bf16" (VStr "Linear") (VStr "velocity") VNone VNone VNone
         (VFloat (1 # 1000000)) (VFloat (1 # 1000)) (VBool false) (VBool false).

Definition loaded : Loaded := mkLoaded train_args bfloat16.

Definition request (resolution : string) (seed : Z) : Request :=
  mkRequest (VStr "hi") (VStr resolution) (VInt 60) (VFloat 4) (VStr "euler")
            (VInt 4) (VInt seed) (VBool true) (VBool true).

(** The run environments built from these: [n] is [--num_gpus]. *)
Definition env_with (create : Args -> value -> value -> value -> result unit)
    (n : Z) : Env :=
  mkEnv Z Z unit unit cast manual_seed randn_cuda load_model_args run_stage
        create tokenizer_encode lm_decoder run_sample_fn decode_to_image
        (cli_args n).

Definition env (n : Z) : Env := env_with create_sample_fn n.
Definition interrupted_env : Env := env_with interrupted_create_sample_fn 1.
Definition failing_env : Env := env_with failing_create_sample_fn 1.


(** What the widgets hold when the user has chosen [resolution] and [seed]
    and left the rest as it is, but for a short caption. *)
Definition ui (resolution : string) (seed : Z) : UI.state :=
  fun c =>
    match c with
    | UI.cap => VStr "hi"
    | UI.resolution => VStr resolution
    | UI.num_sampling_steps => VInt 60
    | UI.cfg_scale => VFloat 4
    | UI.solver => VStr "euler"
    | UI.t_shift => VInt 4
    | UI.seed => VInt seed
    | UI.ntk_scaling => VBool true
    | UI.proportional_attn => VBool true
    | UI.output_img => VNone
    | UI.submit_btn => VNone
    end.

(** The tuple a click sends then. *)
Definition item (resolution : string) (seed : Z) : value :=
  VTuple (UI.click_args (ui resolution seed)).

(** The state of worker 0 once its model is loaded, with one GPU. *)
Definition loaded_state (create : Args -> value -> value -> value -> result unit)
  : @wstate (env_with create 1) :=
  Eval vm_compute in
    snd (@model_main_load (env_with create 1) 0 (@mkW (env_with create 1) 0 [])).

Definition worker0 (create : Args -> value -> value -> value -> result unit)
    (pc : worker_pc) (requests : list value) : @worker (env_with create 1) :=
  @mkWorker (env_with create 1) 0 pc requests (loaded_state create).

(** The run with one GPU when the UI has just been launched: worker 0 has
    loaded its model and is at the barrier, which has released. *)
Definition serving (create : Args -> value -> value -> value -> result unit)
  : @sys (env_with create 1) :=
  @mkSys (env_with create 1) FServing [worker0 create (WAtBarrier loaded) []] []
         (mkBarrier 2 2 true).

(** The same run after a click, [on_submit] waiting for the response. *)
Definition in_submit (create : Args -> value -> value -> value -> result unit)
  : @sys (env_with create 1) :=
  @mkSys (env_with create 1) FInSubmit
         [worker0 create (WAtBarrier loaded) [item "1024x1024" 1]] []
         (mkBarrier 2 2 true).

(** The same run once worker 0 has entered its loop and taken the request. *)
Definition handling (create : Args -> value -> value -> value -> result unit)
  : @sys (env_with create 1) :=
  @mkSys (env_with create 1) FInSubmit
         [worker0 create (WBusy loaded (item "1024x1024" 1)) []] []
         (mkBarrier 2 2 true).

(** ** Runs where loading or handling goes wrong *)

(** An environment with one GPU whose checkpoint arguments are read by
    [load]. *)
Definition env_loading (load : string -> result TrainArgs) : Env :=
  mkEnv Z Z unit unit cast manual_seed randn_cuda load run_stage
        create_sample_fn tokenizer_encode lm_decoder run_sample_fn decode_to_image
        (cli_args 1).

(** The checkpoint directory has no [model_args.pth]. *)
Definition broken_env : Env :=
  env_loading (fun _ => Raise (mkExc OSError ["No such file or directory"])).

(** The checkpoint was trained on two model-parallel ranks. *)
Definition sharded_train_args : TrainArgs :=
  mkTrainArgs "lm" "tokenizer" "sdxl" "DiT_Llama" true 1024 2.

Definition sharded_env : Env := env_loading (fun _ => Ok sharded_train_args).

(** The run of [broken_env] once worker 0 has failed to load. *)
Definition load_failed_state : @wstate broken_env :=
  Eval vm_compute in snd (@model_main_load broken_env 0 (@mkW broken_env 0 [])).

Definition load_failed_run : @sys broken_env :=
  @mkSys broken_env (FSpawn 1)
         [@mkWorker broken_env 0
            (WLoadFailed (mkExc OSError ["No such file or directory"])) []
            load_failed_state]
         [] (mkBarrier 2 0 false).

(** The run of [interrupted_env] once worker 0 has been interrupted while
    handling the request. *)
Definition interrupted_run : @sys interrupted_env :=
  @mkSys interrupted_env FInSubmit
         [worker0 interrupted_create_sample_fn
            (WTerminated (mkExc KeyboardInterrupt [])) []]
         [] (mkBarrier 2 2 true).

(** The run of [failing_env] once worker 0 has answered the failed request. *)
Definition answered_run : @sys failing_env :=
  @mkSys failing_env FInSubmit
         [@mkWorker failing_env 0 (WIdle loaded) []
            (@mkW failing_env 0
               (trace (loaded_state failing_create_sample_fn)
                ++ [EvPrint (Traceback (mkExc ValueError ["unknown solver"]))]))]
         [VModelFailure] (mkBarrier 2 2 true).

(** A checkpoint trained on images of 8 pixels. *)
Definition tiny_loaded : Loaded :=
  mkLoaded (mkTrainArgs "lm" "tokenizer" "sdxl" "DiT_Llama" true 8 1) bfloat16.

End Toy.


(* ================================================================== *)
(** * Facts *)
(* ================================================================== *)

Section Facts.

Context `{env : Env}.

Lemma skipn_repeat {A} (x : A) (k n : nat) :
  skipn k (repeat x n) = repeat x (n - k).
Proof.
  revert n; induction k as [|k IH]; intros [|n]; simpl; auto.
Qed.

Lemma set_prefix_zero_row (tokens : list Z) (width : nat) :
  (List.length tokens <= width)%nat ->
  Tensor.set_prefix (List.length tokens) tokens (repeat 0 width)
  = Ok (padded tokens width).
Proof.
  intros Hle. unfold Tensor.set_prefix, padded.
  rewrite repeat_length, Nat.min_l by exact Hle.
  now rewrite Nat.eqb_refl, skipn_repeat.
Qed.

Lemma fill_prefix_false_row (n width : nat) :
  (n <= width)%nat ->
  Tensor.fill_prefix n true (repeat false width) = Ok (mask_row n width).
Proof.
  intros Hle. unfold Tensor.fill_prefix, mask_row.
  now rewrite repeat_length, Nat.min_l, skipn_repeat by exact Hle.
Qed.

(** The closed form of [conditioning]. *)
Lemma conditioning_rows (caption : value) (cap_tok null_cap_tok : list Z) :
  tokenizer_encode caption = Ok cap_tok ->
  tokenizer_encode (VStr "") = Ok null_cap_tok ->
  conditioning caption =
  Ok ([padded cap_tok (Nat.max (List.length cap_tok) (List.length null_cap_tok));
       padded null_cap_tok (Nat.max (List.length cap_tok) (List.length null_cap_tok))],
      [mask_row (List.length cap_tok) (Nat.max (List.length cap_tok) (List.length null_cap_tok));
       mask_row (List.length null_cap_tok) (Nat.max (List.length cap_tok) (List.length null_cap_tok))]).
Proof.
  intros Hcap Hnull. unfold conditioning. rewrite Hcap, Hnull.
  cbn [rbind Tensor.zeros Tensor.zeros_like_bool List.map Tensor.update_row].
  rewrite !repeat_length.
  rewrite set_prefix_zero_row by apply Nat.le_max_l.
  cbn [rbind Tensor.update_row].
  rewrite set_prefix_zero_row by apply Nat.le_max_r.
  cbn [rbind Tensor.update_row].
  rewrite fill_prefix_false_row by apply Nat.le_max_l.
  cbn [rbind Tensor.update_row].
  rewrite fill_prefix_false_row by apply Nat.le_max_r.
  reflexivity.
Qed.

Lemma padded_length (tokens : list Z) (width : nat) :
  (List.length tokens <= width)%nat -> List.length (padded tokens width) = width.
Proof.
  intros Hle. unfold padded. rewrite length_app, repeat_length. lia.
Qed.

Lemma padded_nth (tokens : list Z) (width j : nat) :
  nth j (padded tokens width) 0
  = if (j <? List.length tokens)%nat then nth j tokens 0 else 0.
Proof.
  unfold padded. destruct (Nat.ltb_spec j (List.length tokens)) as [Hlt|Hge].
  - now apply app_nth1.
  - rewrite app_nth2 by lia. apply nth_repeat.
Qed.

Lemma mask_row_length (n width : nat) :
  (n <= width)%nat -> List.length (mask_row n width) = width.
Proof.
  intros Hle. unfold mask_row. rewrite length_app, !repeat_length. lia.
Qed.

Lemma mask_row_nth (n width j : nat) :
  nth j (mask_row n width) false = (j <? n)%nat.
Proof.
  unfold mask_row. destruct (Nat.ltb_spec j n) as [Hlt|Hge].
  - rewrite app_nth1 by (rewrite repeat_length; exact Hlt).
    now apply nth_repeat_lt.
  - rewrite app_nth2 by (rewrite repeat_length; lia). apply nth_repeat.
Qed.

(** C10: for a request whose caption and the empty caption are tokenised to
    [cap_tok] and [null_cap_tok], the token tensor and the mask have shape
    [2, max(len(cap_tok), len(null_cap_tok))]; row 0 of the tokens is
    [cap_tok] followed by zeros, row 1 is [null_cap_tok] followed by zeros;
    the mask is true at position [j] of row 0 exactly when
    [j < len(cap_tok)], and of row 1 exactly when [j < len(null_cap_tok)]. *)
Theorem conditioning_invariant (caption : value) (cap_tok null_cap_tok : list Z) :
  tokenizer_encode caption = Ok cap_tok ->
  tokenizer_encode (VStr "") = Ok null_cap_tok ->
  exists tok0 tok1 mask0 mask1,
    conditioning caption = Ok ([tok0; tok1], [mask0; mask1]) /\
    List.length tok0 = Nat.max (List.length cap_tok) (List.length null_cap_tok) /\
    List.length tok1 = Nat.max (List.length cap_tok) (List.length null_cap_tok) /\
    List.length mask0 = Nat.max (List.length cap_tok) (List.length null_cap_tok) /\
    List.length mask1 = Nat.max (List.length cap_tok) (List.length null_cap_tok) /\
    firstn (List.length cap_tok) tok0 = cap_tok /\
    firstn (List.length null_cap_tok) tok1 = null_cap_tok /\
    (forall j, (List.length cap_tok <= j)%nat -> nth j tok0 0 = 0) /\
    (forall j, (List.length null_cap_tok <= j)%nat -> nth j tok1 0 = 0) /\
    (forall j, nth j mask0 false = true <-> (j < List.length cap_tok)%nat) /\
    (forall j, nth j mask1 false = true <-> (j < List.length null_cap_tok)%nat).
Proof.
  intros Hcap Hnull.
  pose proof (Nat.le_max_l (List.length cap_tok) (List.length null_cap_tok)) as Hl.
  pose proof (Nat.le_max_r (List.length cap_tok) (List.length null_cap_tok)) as Hr.
  do 4 eexists. split; [exact (conditioning_rows _ _ _ Hcap Hnull)|].
  repeat split.
  - now apply padded_length.
  - now apply padded_length.
  - now apply mask_row_length.
  - now apply mask_row_length.
  - unfold padded. now rewrite firstn_app, Nat.sub_diag, firstn_all, app_nil_r.
  - unfold padded. now rewrite firstn_app, Nat.sub_diag, firstn_all, app_nil_r.
  - intros j Hj. rewrite padded_nth.
    destruct (Nat.ltb_spec j (List.length cap_tok)); [lia|reflexivity].
  - intros j Hj. rewrite padded_nth.
    destruct (Nat.ltb_spec j (List.length null_cap_tok)); [lia|reflexivity].
  - rewrite mask_row_nth. apply Nat.ltb_lt.
  - rewrite mask_row_nth. apply Nat.ltb_lt.
  - rewrite mask_row_nth. apply Nat.ltb_lt.
  - rewrite mask_row_nth. apply Nat.ltb_lt.
Qed.

(** ** The noise of a request *)








(** ** The resolution *)


Lemma index_last_single {A} (x : A) : index_last [x] = Ok x.
Proof. reflexivity. Qed.








(** ** The request loop and [on_submit] *)

(** A turn of the loop whose handling raises an exception that derives from
    [Exception], in a worker that holds the response queue. *)
Lemma loop_turn_catches (ld : Loaded) (rank : Z) (item : value)
    (req : Request) (q : list value) (st st' : wstate) (e : exc) :
  unpack_request item = Ok req ->
  handle_request ld rank req st = (Raise e, st') ->
  is_Exception (exc_cls e) = true ->
  loop_turn ld rank item (Some q) st
  = (NextRequest, Some (q ++ [VModelFailure]),
     mkW (gen st') (trace st' ++ [EvPrint (Traceback e)])).
Proof.
  intros Hunpack Hraise Hexc. unfold loop_turn.
  now rewrite Hunpack, Hraise, Hexc.
Qed.

(** C2: [on_submit] puts the submitted tuple on every request queue and reads
    the response queue; with nothing to read it stays blocked; once a result
    is read, a [ModelFailure] instance makes it raise [RuntimeError] built
    with no argument, and any other result is returned as it is.  In the
    system, what a submission hands to the UI is always obtained this way
    from the head of the response queue. *)
Theorem on_submit_outcome (submitted : list value)
    (request_queues : list (list value)) :
  on_submit submitted request_queues []
  = (None, put_all (VTuple submitted) request_queues, []) /\
  (forall (result : value) (rest : list value),
      exists outcome,
        on_submit submitted request_queues (result :: rest)
        = (Some outcome, put_all (VTuple submitted) request_queues, rest) /\
        (isinstance_ModelFailure result = true ->
           outcome = Raise (mkExc RuntimeError [])) /\
        (isinstance_ModelFailure result = false -> outcome = Ok result)) /\
  (forall (s s' : sys) (outcome : Py.result value),
      step s (LReturn outcome) s' ->
      exists result rest,
        response_queue s = result :: rest /\
        response_queue s' = rest /\
        outcome = (if isinstance_ModelFailure result
                   then Raise (mkExc RuntimeError []) else Ok result)).
Proof.
  split; [reflexivity|]. split.
  - intros result rest. exists (on_submit_result result).
    split; [reflexivity|]. unfold on_submit_result.
    split; intros ->; reflexivity.
  - intros s s' outcome Hstep. inversion Hstep; subst.
    match goal with
    | H : queue_get (response_queue s) = Some (?r, ?q) |- _ =>
        exists r, q; destruct (response_queue s) as [|r0 q0];
        [discriminate H|injection H as -> ->]
    end.
    auto.
Qed.

(** The response queue grows by at most one object in a turn of the loop,
    and that object is an image or a [ModelFailure]. *)
Lemma loop_turn_puts (ld : Loaded) (rank : Z) (item : value)
    (q q' : list value) (st st' : wstate) (ending : turn_end) :
  loop_turn ld rank item (Some q) st = (ending, Some q', st') ->
  q' = q \/ q' = q ++ [VModelFailure] \/ exists img, q' = q ++ [VImage img].
Proof.
  unfold loop_turn. destruct (unpack_request item) as [req|e].
  - destruct (handle_request ld rank req st) as [[img|e] st1].
    + intros H. injection H as _ <- _. right. right. now exists img.
    + destruct (is_Exception (exc_cls e)); intros H; injection H as _ <- _; auto.
  - intros H. injection H as _ <- _. auto.
Qed.

(** C3: the tuple that a click puts on the request queues holds the values
    of the nine inputs in the order caption, resolution, sampling steps, CFG
    scale, solver, time shift, seed, ntk scaling, proportional attention; the
    worker unpacks it into its nine parameters in that same order; every
    submission of the run is such a tuple; and what a turn of the worker loop
    adds to the response queue is an image or a [ModelFailure]. *)
Theorem request_tuple_order (ui : UI.state) :
  UI.click_args ui
  = [ui UI.cap; ui UI.resolution; ui UI.num_sampling_steps; ui UI.cfg_scale;
     ui UI.solver; ui UI.t_shift; ui UI.seed; ui UI.ntk_scaling;
     ui UI.proportional_attn] /\
  List.length (UI.click_args ui) = 9%nat /\
  (forall request_queues response_queue,
      snd (fst (on_submit (UI.click_args ui) request_queues response_queue))
      = List.map (fun q => q ++ [VTuple (UI.click_args ui)]) request_queues) /\
  unpack_request (VTuple (UI.click_args ui))
  = Ok (mkRequest (ui UI.cap) (ui UI.resolution) (ui UI.num_sampling_steps)
                  (ui UI.cfg_scale) (ui UI.solver) (ui UI.t_shift) (ui UI.seed)
                  (ui UI.ntk_scaling) (ui UI.proportional_attn)) /\
  (forall (s s' : sys) (submitted : list value),
      step s (LSubmit submitted) s' -> exists ui', submitted = UI.click_args ui') /\
  (forall (ld : Loaded) (rank : Z) (item : value) (q q' : list value)
          (st st' : wstate) (ending : turn_end),
      loop_turn ld rank item (Some q) st = (ending, Some q', st') ->
      q' = q \/ q' = q ++ [VModelFailure] \/ exists img, q' = q ++ [VImage img]).
Proof.
  split; [reflexivity|]. split; [reflexivity|]. split.
  - intros request_queues response_queue. unfold on_submit.
    now destruct (queue_get response_queue) as [[result rest]|].
  - split; [reflexivity|]. split; [|apply loop_turn_puts].
    intros s s' submitted Hstep. inversion Hstep; subst. eauto.
Qed.

(** ** The check of [num_gpus] *)

(** When [main] refuses, no state of the run has a worker process. *)
Lemma rejected_run_has_no_worker (s : sys) :
  num_gpus args <> 1 ->
  reachable s ->
  workers s = [] /\ (fe s = FStart \/ exists e, fe s = FRaised e).
Proof.
  intros Hn Hreach. induction Hreach as [|s l s' Hreach [Hws Hfe] Hstep].
  - cbn. auto.
  - assert (Hguard : main_guard <> Ok tt).
    { unfold main_guard. destruct (Z.eqb_spec (num_gpus args) 1); congruence. }
    inversion Hstep; subst; cbn [workers fe];
      try (destruct Hfe as [Hfe|[e0 Hfe]]; congruence);
      try (rewrite Hws in *; match goal with
                             | H : [] = ?pre ++ _ :: _ |- _ =>
                                 destruct pre; discriminate H
                             end).
    split; [exact Hws|]. right. eauto.
Qed.

Lemma load_rejects_many_gpus (rank : Z) (st : wstate) (ta : TrainArgs) (dt : dtype) :
  num_gpus args > 1 ->
  run_stage InitProcessGroup = None ->
  run_stage InitModelParallel = None ->
  run_stage SetDevice = None ->
  load_model_args (ckpt args) = Ok ta ->
  dtype_of_precision (precision args) = Ok dt ->
  run_stage CreateLM = None ->
  model_main_load rank st
  = (Raise (mkExc NotImplementedError ["Inference with >1 GPUs not yet supported"]),
     mkW (gen st) (trace st ++ trace_until_lm rank ta)).
Proof.
  intros Hn H1 H2 H3 Hta Hdt Hlm.
  assert (Hgt : (num_gpus args >? 1) = true) by (apply Z.gtb_lt; lia).
  unfold model_main_load, trace_until_lm, bind, stage, lift, when, print, emit, raise, ret.
  rewrite H1, H2, H3, Hta, Hdt, Hlm, Hgt.
  destruct (rank =? 0); cbn [gen trace]; repeat rewrite <- app_assoc; reflexivity.
Qed.

Lemma load_failures_single_gpu (rank : Z) (st st' : wstate) (e : exc) :
  num_gpus args = 1 ->
  model_main_load rank st = (Raise e, st') ->
  (exists s, run_stage s = Some e) \/
  load_model_args (ckpt args) = Raise e \/
  dtype_of_precision (precision args) = Raise e \/
  e = mkExc AssertionError [].
Proof.
  intros Hn.
  unfold model_main_load, bind, stage, lift, when, print, emit, raise, ret.
  rewrite Hn. change (1 >? 1) with false. cbv iota.
  destruct (run_stage InitProcessGroup) eqn:E1;
    [intros H; injection H as <- _; eauto|].
  destruct (run_stage InitModelParallel) eqn:E2;
    [intros H; injection H as <- _; eauto|].
  destruct (run_stage SetDevice) eqn:E3;
    [intros H; injection H as <- _; eauto|].
  destruct (load_model_args (ckpt args)) as [ta|e0] eqn:E4;
    [|intros H; injection H as <- _; eauto].
  destruct (rank =? 0); cbv iota;
    (destruct (dtype_of_precision (precision args)) as [dt|e0] eqn:E5;
       [|intros H; injection H as <- _; eauto]);
    (destruct (run_stage CreateLM) eqn:E6;
       [intros H; injection H as <- _; eauto|]);
    (destruct (run_stage CreateTokenizer) eqn:E7;
       [intros H; injection H as <- _; eauto|]);
    (destruct (run_stage CreateVAE) eqn:E8;
       [intros H; injection H as <- _; eauto|]);
    (destruct (run_stage CreateDiT) eqn:E9;
       [intros H; injection H as <- _; eauto|]);
    (destruct (model_parallel_size ta =? 1);
       [|intros H; injection H as <- _; auto]);
    (destruct (run_stage LoadCheckpoint) eqn:E10;
       [intros H; injection H as <- _; eauto|]);
    (destruct (run_stage LoadStateDict) eqn:E11;
       [intros H; injection H as <- _; eauto|]);
    intros H; discriminate H.
Qed.

(** C6: when [num_gpus] is not 1, [main] raises [NotImplementedError] and no
    state of the run has a worker process; in [model_main], when
    [num_gpus > 1] and the calls up to the creation of the language model
    succeed, [NotImplementedError] is raised right after that creation;
    when [num_gpus] is 1, the check of [main] passes, and an exception that
    leaves the loading part of [model_main] comes from one of the external
    calls, from the precision table or from the assertion on
    [model_parallel_size], never from its check of [num_gpus]. *)
Theorem multi_gpu_rejected :
  (num_gpus args <> 1 ->
     main_guard
     = Raise (mkExc NotImplementedError ["Multi-GPU Inference is not yet supported"]) /\
     forall s, reachable s -> workers s = []) /\
  (num_gpus args > 1 ->
     forall (rank : Z) (st : wstate) (ta : TrainArgs) (dt : dtype),
       run_stage InitProcessGroup = None ->
       run_stage InitModelParallel = None ->
       run_stage SetDevice = None ->
       load_model_args (ckpt args) = Ok ta ->
       dtype_of_precision (precision args) = Ok dt ->
       run_stage CreateLM = None ->
       model_main_load rank st
       = (Raise (mkExc NotImplementedError ["Inference with >1 GPUs not yet supported"]),
          mkW (gen st) (trace st ++ trace_until_lm rank ta))) /\
  (num_gpus args = 1 ->
     main_guard = Ok tt /\
     forall (rank : Z) (st st' : wstate) (e : exc),
       model_main_load rank st = (Raise e, st') ->
       (exists s, run_stage s = Some e) \/
       load_model_args (ckpt args) = Raise e \/
       dtype_of_precision (precision args) = Raise e \/
       e = mkExc AssertionError []).
Proof.
  split; [|split].
  - intros Hn. split.
    + unfold main_guard. destruct (Z.eqb_spec (num_gpus args) 1); congruence.
    + intros s Hs. exact (proj1 (rejected_run_has_no_worker s Hn Hs)).
  - intros Hn rank st ta dt. now apply load_rejects_many_gpus.
  - intros Hn. split.
    + unfold main_guard. now rewrite Hn.
    + intros rank st st' e. now apply load_failures_single_gpu.
Qed.

(** ** The start-up barrier *)

Lemma count_arrived_app (a b : list worker) :
  count_arrived (a ++ b) = count_arrived a + count_arrived b.
Proof.
  induction a as [|w a IH]; cbn [count_arrived fold_right app]; [reflexivity|].
  fold (count_arrived (a ++ b)). fold (count_arrived a). lia.
Qed.

Lemma count_arrived_cons (w : worker) (ws : list worker) :
  count_arrived (w :: ws) = (if arrived w then 1 else 0) + count_arrived ws.
Proof. reflexivity. Qed.

Lemma count_arrived_bound (ws : list worker) :
  0 <= count_arrived ws <= Z.of_nat (List.length ws).
Proof.
  induction ws as [|w ws IH]; [cbn; lia|].
  rewrite count_arrived_cons. cbn [List.length]. destruct (arrived w); lia.
Qed.

Lemma count_arrived_full (ws : list worker) :
  count_arrived ws = Z.of_nat (List.length ws) ->
  Forall (fun w => arrived w = true) ws.
Proof.
  induction ws as [|w ws IH]; intros H; [constructor|].
  rewrite count_arrived_cons in H. cbn [List.length] in H.
  pose proof (count_arrived_bound ws) as Hb.
  destruct (arrived w) eqn:Hw; [|lia].
  constructor; [exact Hw|]. apply IH. lia.
Qed.

Lemma count_arrived_map (f : worker -> worker) (ws : list worker) :
  (forall w, arrived (f w) = arrived w) ->
  count_arrived (List.map f ws) = count_arrived ws.
Proof.
  intros Hf. induction ws as [|w ws IH]; [reflexivity|].
  cbn [List.map]. now rewrite !count_arrived_cons, Hf, IH.
Qed.

Lemma count_arrived_replace (pre post : list worker) (w w' : worker) :
  count_arrived (pre ++ w' :: post)
  = count_arrived (pre ++ w :: post)
    + (if arrived w' then 1 else 0) - (if arrived w then 1 else 0).
Proof.
  rewrite !count_arrived_app, !count_arrived_cons. lia.
Qed.

Lemma length_replace {A} (pre post : list A) (x y : A) :
  List.length (pre ++ y :: post) = List.length (pre ++ x :: post).
Proof. now rewrite !length_app. Qed.

Lemma Forall_replace {A} (P : A -> Prop) (pre post : list A) (x y : A) :
  Forall P (pre ++ x :: post) -> P y -> Forall P (pre ++ y :: post).
Proof.
  intros H Hy. apply Forall_app in H as [Hpre Hpost].
  apply Forall_app. split; [exact Hpre|].
  inversion Hpost; subst. now constructor.
Qed.

Lemma Forall_middle {A} (P : A -> Prop) (pre post : list A) (x : A) :
  Forall P (pre ++ x :: post) -> P x.
Proof.
  intros H. apply Forall_app in H as [_ Hpost]. now inversion Hpost.
Qed.

(** A worker not yet at the barrier keeps the count below [parties]. *)
Lemma count_arrived_missing (pre post : list worker) (w : worker) :
  arrived w = false ->
  count_arrived (pre ++ w :: post) < Z.of_nat (List.length (pre ++ w :: post)).
Proof.
  intros Hw. rewrite count_arrived_app, count_arrived_cons, Hw, length_app.
  cbn [List.length].
  pose proof (count_arrived_bound pre). pose proof (count_arrived_bound post). lia.
Qed.

(** A step of a worker that neither reaches the barrier nor touches it. *)
Lemma startup_inv_worker_moves (s : sys) (pre post : list worker)
    (w w' : worker) (rq : list value) :
  startup_inv s ->
  workers s = pre ++ w :: post ->
  arrived w' = arrived w ->
  (in_loop w' = true -> released (mp_barrier s) = true) ->
  w_rank w' = w_rank w ->
  startup_inv (mkSys (fe s) (pre ++ w' :: post) rq (mp_barrier s)).
Proof.
  unfold startup_inv. intros Hinv Hws Harr Hloop Hrank. cbn [fe workers mp_barrier].
  rewrite Hws in Hinv.
  destruct (fe s) eqn:Hfe;
    try (destruct pre; discriminate Hinv);
    (destruct Hinv as (Hn & Hp & Hc & Hr & Hlen & Hi & Hfa & Hfl & Hall & Hranks);
     rewrite (count_arrived_replace pre post w w'), Harr,
       (length_replace pre post w w');
     repeat split; try assumption; try lia;
     [eapply Forall_replace; [exact Hall|exact Hloop]
     |eapply Forall_replace; [exact Hranks|];
      rewrite Hrank; exact (Forall_middle _ _ _ _ Hranks)]).
Qed.

Lemma arrive_keeps_release_rule (b : barrier) :
  n_waiting b < parties b ->
  released b = (n_waiting b =? parties b) ->
  released (barrier_arrive b)
  = (n_waiting (barrier_arrive b) =? parties (barrier_arrive b)).
Proof.
  intros Hlt Hr. unfold barrier_arrive. cbn [released n_waiting parties].
  rewrite Hr. now rewrite (proj2 (Z.eqb_neq _ _)) by lia.
Qed.

Lemma arrive_stays_released (b : barrier) :
  released b = true -> released (barrier_arrive b) = true.
Proof. intros H. unfold barrier_arrive. cbn. now rewrite H. Qed.

Lemma main_guard_passed : main_guard = Ok tt -> num_gpus args = 1.
Proof.
  unfold main_guard. destruct (Z.eqb_spec (num_gpus args) 1); [auto|discriminate].
Qed.

Lemma startup_inv_step (s s' : sys) (l : label) :
  startup_inv s -> step s l s' -> startup_inv s'.
Proof.
  intros Hinv Hstep.
  destruct Hstep as
    [ s e Hfe Hguard
    | s Hfe Hguard
    | s i g Hfe Hi
    | s i Hfe Hi
    | s Hfe Hrel
    | s ui Hfe
    | s result rest Hfe Hget
    | s pre w post ld st' Hws Hpc Hload
    | s pre w post e st' Hws Hpc Hload
    | s pre w post ld Hws Hpc Hrel
    | s pre w post ld item rest Hws Hpc Hget
    | s pre w post ld item ending rq' st' Hws Hpc Hturn ].
  - (* main refuses *)
    unfold startup_inv in *. rewrite Hfe in Hinv. exact Hinv.
  - (* the queues and the barrier are created *)
    unfold startup_inv in *. rewrite Hfe in Hinv. cbn [fe workers mp_barrier].
    pose proof (main_guard_passed Hguard) as Hn. rewrite Hinv.
    cbn [parties n_waiting released count_arrived fold_right front_arrived
         front_launched List.length].
    rewrite Hn. repeat split; try lia; try constructor; try discriminate.
    intros i Hi. now injection Hi as <-.
  - (* a worker is started *)
    unfold startup_inv in *. rewrite Hfe in Hinv. cbn [fe workers mp_barrier].
    destruct Hinv as (Hn & Hp & Hc & Hr & Hlen & Hidx & Hfa & Hfl & Hall & Hranks).
    specialize (Hidx i eq_refl).
    rewrite count_arrived_app, length_app. cbn [count_arrived fold_right List.length arrived w_pc].
    fold (count_arrived (workers s)).
    repeat split; try assumption; try lia; try discriminate.
    + cbn [front_arrived] in *. lia.
    + intros j Hj. injection Hj as <-. lia.
    + apply Forall_app. split; [exact Hall|]. constructor; [|constructor].
      cbn. discriminate.
    + apply Forall_app. split; [exact Hranks|]. constructor; [|constructor].
      cbn [w_rank]. lia.
  - (* the front end reaches the barrier *)
    unfold startup_inv in *. rewrite Hfe in Hinv. cbn [fe workers mp_barrier].
    destruct Hinv as (Hn & Hp & Hc & Hr & Hlen & Hidx & Hfa & Hfl & Hall & Hranks).
    specialize (Hidx i eq_refl).
    pose proof (count_arrived_bound (workers s)) as Hb.
    cbn [front_arrived] in *.
    assert (Hlt : n_waiting (mp_barrier s) < parties (mp_barrier s)) by lia.
    repeat split; try assumption; try lia; try discriminate.
    + cbn [barrier_arrive n_waiting]. lia.
    + now apply arrive_keeps_release_rule.
    + eapply Forall_impl; [|exact Hall]. cbn beta. intros w Hw Hin.
      apply arrive_stays_released. auto.
  - (* the UI is launched *)
    unfold startup_inv in *. rewrite Hfe in Hinv. cbn [fe workers mp_barrier].
    destruct Hinv as (Hn & Hp & Hc & Hr & Hlen & Hidx & Hfa & Hfl & Hall & Hranks).
    repeat split; try assumption; try discriminate. intros _. exact Hrel.
  - (* on_submit puts the request *)
    unfold startup_inv in *. rewrite Hfe in Hinv. cbn [fe workers mp_barrier].
    destruct Hinv as (Hn & Hp & Hc & Hr & Hlen & Hidx & Hfa & Hfl & Hall & Hranks).
    rewrite count_arrived_map by reflexivity. rewrite length_map.
    repeat split; try assumption; try discriminate.
    + apply Forall_map. eapply Forall_impl; [|exact Hall]. auto.
    + apply Forall_map. eapply Forall_impl; [|exact Hranks]. auto.
  - (* on_submit returns *)
    unfold startup_inv in *. rewrite Hfe in Hinv. cbn [fe workers mp_barrier].
    destruct Hinv as (Hn & Hp & Hc & Hr & Hlen & Hidx & Hfa & Hfl & Hall & Hranks).
    repeat split; try assumption; try discriminate.
  - (* a worker finishes loading and reaches the barrier *)
    assert (Hw : arrived w = false) by (unfold arrived; now rewrite Hpc).
    pose proof (count_arrived_missing pre post w Hw) as Hmiss.
    unfold startup_inv in *. cbn [fe workers mp_barrier]. rewrite Hws in Hinv.
    destruct (fe s) eqn:Hfe;
      try (destruct pre; discriminate Hinv);
      (destruct Hinv as (Hn & Hp & Hc & Hr & Hlen & Hidx & Hfa & Hfl & Hall & Hranks);
       assert (Hlt : n_waiting (mp_barrier s) < parties (mp_barrier s))
         by (rewrite Hc, Hp; destruct (front_arrived _); lia);
       rewrite (count_arrived_replace pre post w), Hw,
         (length_replace pre post w);
       repeat split; try assumption; try lia; try discriminate;
       [ cbn [barrier_arrive n_waiting arrived w_pc]; lia
       | now apply arrive_keeps_release_rule
       | try (intros _; apply arrive_stays_released; now apply Hfl)
       | .. ]).
    all: try (eapply Forall_replace; [|cbn; discriminate];
              eapply Forall_impl; [|exact Hall]; cbn beta; intros w0 Hw0 Hin;
              apply arrive_stays_released; auto).
    all: try (eapply Forall_replace; [exact Hranks|]; cbn [w_rank];
              exact (Forall_middle _ _ _ _ Hranks)).
  - (* loading fails *)
    eapply startup_inv_worker_moves; eauto.
    + unfold arrived. now rewrite Hpc.
    + cbn. discriminate.
  - (* a worker leaves the barrier *)
    eapply startup_inv_worker_moves; eauto.
    unfold arrived, set_pc. cbn [w_pc]. now rewrite Hpc.
  - (* a worker takes a request *)
    pose proof Hinv as Hinv'.
    eapply startup_inv_worker_moves; eauto.
    + unfold arrived. cbn [w_pc]. now rewrite Hpc.
    + intros _. unfold startup_inv in Hinv'. rewrite Hws in Hinv'.
      destruct (fe s); try (destruct pre; discriminate Hinv');
        (destruct Hinv' as (_ & _ & _ & _ & _ & _ & _ & _ & Hall & _);
         apply (Forall_middle _ _ _ _ Hall); unfold in_loop; now rewrite Hpc).
  - (* a worker ends a turn of its loop *)
    pose proof Hinv as Hinv'.
    eapply startup_inv_worker_moves; eauto.
    + unfold arrived. cbn [w_pc]. rewrite Hpc. now destruct ending.
    + intros _. unfold startup_inv in Hinv'. rewrite Hws in Hinv'.
      destruct (fe s); try (destruct pre; discriminate Hinv');
        (destruct Hinv' as (_ & _ & _ & _ & _ & _ & _ & _ & Hall & _);
         apply (Forall_middle _ _ _ _ Hall); unfold in_loop; now rewrite Hpc).
Qed.

Lemma startup_inv_reachable (s : sys) : reachable s -> startup_inv s.
Proof.
  induction 1 as [|s l s' _ IH Hstep].
  - reflexivity.
  - exact (startup_inv_step s s' l IH Hstep).
Qed.

(** ** The requests in flight *)

Lemma loop_turn_queue (ld : Loaded) (rank : Z) (item : value) (q : list value)
    (st st' : wstate) (ending : turn_end) (rq' : option (list value)) :
  loop_turn ld rank item (Some q) st = (ending, rq', st') ->
  exists q', rq' = Some q' /\ (List.length q' <= List.length q + 1)%nat.
Proof.
  destruct rq' as [q'|].
  - intros H. exists q'. split; [reflexivity|].
    destruct (loop_turn_puts ld rank item q q' st st' ending H)
      as [->|[->|[img ->]]]; rewrite ?length_app; cbn [List.length]; lia.
  - unfold loop_turn. destruct (unpack_request item) as [req|e]; [|discriminate].
    destruct (handle_request ld rank req st) as [[img|e] st1]; [discriminate|].
    destruct (is_Exception (exc_cls e)); discriminate.
Qed.

Lemma startup_inv_single (s : sys) (pre post : list worker) (w : worker) :
  startup_inv s ->
  workers s = pre ++ w :: post ->
  pre = [] /\ post = [] /\ w_rank w = 0.
Proof.
  unfold startup_inv. intros Hinv Hws. rewrite Hws in Hinv.
  destruct (fe s); try (destruct pre; discriminate Hinv);
    (destruct Hinv as (Hn & _ & _ & _ & Hlen & _ & _ & _ & _ & Hranks);
     rewrite length_app in Hlen; cbn [List.length] in Hlen;
     split; [destruct pre; [reflexivity|cbn [List.length] in Hlen; lia]|];
     split; [destruct post; [reflexivity|cbn [List.length] in Hlen; lia]|];
     exact (Forall_middle _ _ _ _ Hranks)).
Qed.

(** A step of a worker that leaves its requests in flight as they are. *)
Lemma flight_inv_worker_moves (s : sys) (pre post : list worker)
    (w w' : worker) (b : barrier) :
  flight_inv s ->
  workers s = pre ++ w :: post ->
  in_flight w' = in_flight w ->
  flight_inv (mkSys (fe s) (pre ++ w' :: post) (response_queue s) b).
Proof.
  unfold flight_inv. intros Hinv Hws Hsame. cbn [fe workers response_queue].
  rewrite Hws in Hinv.
  destruct (fe s); destruct Hinv as [Hall Hresp];
    (split; [|exact Hresp]);
    (eapply Forall_replace; [exact Hall|]; rewrite Hsame;
     exact (Forall_middle _ _ _ _ Hall)).
Qed.

Lemma flight_inv_step (s s' : sys) (l : label) :
  startup_inv s -> flight_inv s -> step s l s' -> flight_inv s'.
Proof.
  intros Hstart Hinv Hstep.
  destruct Hstep as
    [ s e Hfe Hguard
    | s Hfe Hguard
    | s i g Hfe Hi
    | s i Hfe Hi
    | s Hfe Hrel
    | s ui Hfe
    | s result rest Hfe Hget
    | s pre w post ld st' Hws Hpc Hload
    | s pre w post e st' Hws Hpc Hload
    | s pre w post ld Hws Hpc Hrel
    | s pre w post ld item rest Hws Hpc Hget
    | s pre w post ld item ending rq' st' Hws Hpc Hturn ].
  - unfold flight_inv in *. rewrite Hfe in Hinv. exact Hinv.
  - unfold flight_inv in *. rewrite Hfe in Hinv. cbn [fe workers response_queue].
    split; [exact (proj1 Hinv)|reflexivity].
  - unfold flight_inv in *. rewrite Hfe in Hinv. cbn [fe workers response_queue].
    destruct Hinv as [Hall Hresp]. split; [|exact Hresp].
    apply Forall_app. split; [exact Hall|]. now repeat constructor.
  - unfold flight_inv in *. rewrite Hfe in Hinv. exact Hinv.
  - unfold flight_inv in *. rewrite Hfe in Hinv. exact Hinv.
  - (* on_submit puts the request *)
    unfold flight_inv in *. rewrite Hfe in Hinv. cbn [fe workers response_queue].
    destruct Hinv as [Hall ->]. split; [|cbn; lia].
    apply Forall_map. eapply Forall_impl; [|exact Hall]. cbn beta.
    intros w Hw. unfold in_flight, busy in *. cbn [w_requests w_pc List.length].
    rewrite length_app. cbn [List.length]. lia.
  - (* on_submit returns *)
    unfold flight_inv in *. rewrite Hfe in Hinv. cbn [fe workers response_queue].
    destruct (response_queue s) as [|r q]; [discriminate Hget|].
    injection Hget as -> ->. destruct Hinv as [Hall Hlen].
    cbn [List.length] in *. split.
    + eapply Forall_impl; [|exact Hall]. cbn beta. intros w Hw. lia.
    + destruct rest; [reflexivity|cbn [List.length] in Hlen; lia].
  - eapply flight_inv_worker_moves; eauto.
    unfold in_flight, busy. cbn [w_requests w_pc]. now rewrite Hpc.
  - eapply flight_inv_worker_moves; eauto.
    unfold in_flight, busy. cbn [w_requests w_pc]. now rewrite Hpc.
  - eapply flight_inv_worker_moves; eauto.
    unfold in_flight, busy, set_pc. cbn [w_requests w_pc]. now rewrite Hpc.
  - (* a worker takes a request *)
    eapply flight_inv_worker_moves; eauto.
    unfold in_flight, busy. cbn [w_requests w_pc]. rewrite Hpc.
    destruct (w_requests w) as [|x xs]; [discriminate Hget|].
    injection Hget as -> ->. cbn [List.length]. lia.
  - (* a worker ends a turn of its loop *)
    destruct (startup_inv_single s pre post w Hstart Hws) as (-> & -> & Hrank).
    rewrite Hrank in *. change (gets_response_queue 0) with true in Hturn.
    cbv iota in Hturn.
    destruct (loop_turn_queue _ _ _ _ _ _ _ _ Hturn) as (q' & -> & Hq').
    unfold flight_inv in *. cbn [fe workers response_queue app]. rewrite Hws in Hinv.
    cbn [app] in Hinv.
    assert (Hbusy : in_flight w = S (List.length (w_requests w))).
    { unfold in_flight, busy. rewrite Hpc. lia. }
    assert (Hidle : in_flight (mkWorker 0
                       match ending with
                       | NextRequest => WIdle ld
                       | Terminated e => WTerminated e
                       end (w_requests w) st') = List.length (w_requests w)).
    { unfold in_flight, busy. cbn [w_requests w_pc]. destruct ending; lia. }
    destruct (fe s); destruct Hinv as [Hall Hresp];
      apply Forall_inv in Hall; rewrite Hbusy in Hall; try discriminate Hall.
    split; [|lia]. constructor; [|constructor]. rewrite Hidle. lia.
Qed.

Lemma flight_inv_reachable (s : sys) : reachable s -> flight_inv s.
Proof.
  induction 1 as [|s l s' Hreach IH Hstep].
  - cbn. auto.
  - exact (flight_inv_step s s' l (startup_inv_reachable s Hreach) IH Hstep).
Qed.

(** ** The processes along a run *)

Lemma launched_means_loaded (s : sys) :
  startup_inv s ->
  front_launched (fe s) = true ->
  released (mp_barrier s) = true /\
  Forall (fun w => arrived w = true) (workers s) /\
  Z.of_nat (List.length (workers s)) = num_gpus args.
Proof.
  unfold startup_inv. intros Hinv Hl.
  destruct (fe s); try discriminate Hl;
    (destruct Hinv as (Hn & Hp & Hc & Hr & Hlen & Hidx & Hfa & Hfl & Hall & Hranks);
     specialize (Hfl eq_refl); specialize (Hfa eq_refl);
     split; [exact Hfl|]; split; [|exact Hfa];
     apply count_arrived_full;
     rewrite Hfl in Hr; symmetry in Hr; apply Z.eqb_eq in Hr;
     cbn [front_arrived] in Hc; lia).
Qed.

Lemma barrier_changes (s s' : sys) (l : label) :
  step s l s' ->
  mp_barrier s' = mp_barrier s \/
  (l = LSetup /\ mp_barrier s' = mkBarrier (num_gpus args + 1) 0 false) \/
  ((l = LFrontWait \/ exists i, l = LLoaded i) /\
   mp_barrier s' = barrier_arrive (mp_barrier s)).
Proof.
  intros Hstep. destruct Hstep; cbn [mp_barrier]; auto.
  - right. right. split; [|reflexivity]. right. eauto.
Qed.

(** C4: the barrier is created with [num_gpus + 1] parties; the calls of
    [wait()] are those of the workers that have finished loading and the one
    of the front end after it has built the UI, each counted once; a worker is
    in its request loop, and the UI is launched, only once the barrier has
    released; so when [on_submit] puts a request on the queues, every worker
    that [main] started has finished loading its model. *)
Theorem startup_barrier (s : sys) :
  reachable s ->
  (forall l s', step s l s' ->
     mp_barrier s' = mp_barrier s \/
     (l = LSetup /\ mp_barrier s' = mkBarrier (num_gpus args + 1) 0 false) \/
     ((l = LFrontWait \/ exists i, l = LLoaded i) /\
      mp_barrier s' = barrier_arrive (mp_barrier s))) /\
  (forall i s', step s (LLoaded i) s' ->
     exists pre w post ld st',
       workers s = pre ++ w :: post /\
       w_pc w = WLoading /\
       model_main_load (w_rank w) (w_state w) = (Ok ld, st') /\
       workers s'
       = pre ++ mkWorker (w_rank w) (WAtBarrier ld) (w_requests w) st' :: post) /\
  (forall i s', step s (LEnterLoop i) s' -> released (mp_barrier s) = true) /\
  (front_arrived (fe s) = true \/ (exists i, fe s = FSpawn i) ->
     parties (mp_barrier s) = num_gpus args + 1 /\
     n_waiting (mp_barrier s)
     = count_arrived (workers s) + (if front_arrived (fe s) then 1 else 0)) /\
  Forall (fun w => in_loop w = true -> released (mp_barrier s) = true) (workers s) /\
  (front_launched (fe s) = true ->
     released (mp_barrier s) = true /\
     Forall (fun w => arrived w = true) (workers s) /\
     Z.of_nat (List.length (workers s)) = num_gpus args) /\
  (forall submitted s', step s (LSubmit submitted) s' ->
     Forall (fun w => arrived w = true) (workers s) /\
     Z.of_nat (List.length (workers s)) = num_gpus args).
Proof.
  intros Hreach. pose proof (startup_inv_reachable s Hreach) as Hinv.
  split; [|split; [|split; [|split; [|split; [|split]]]]].
  - intros l s' Hstep. exact (barrier_changes s s' l Hstep).
  - intros i s' Hstep. inversion Hstep; subst. cbn [workers]. eauto 10.
  - intros i s' Hstep. now inversion Hstep.
  - unfold startup_inv in Hinv. intros [Hfa|[i Hi]].
    + destruct (fe s); try discriminate Hfa; now destruct Hinv as (_ & Hp & Hc & _).
    + rewrite Hi in *. now destruct Hinv as (_ & Hp & Hc & _).
  - unfold startup_inv in Hinv.
    destruct (fe s); try (rewrite Hinv; constructor);
      now destruct Hinv as (_ & _ & _ & _ & _ & _ & _ & _ & Hall & _).
  - now apply launched_means_loaded.
  - intros submitted s' Hstep. inversion Hstep; subst.
    match goal with
    | H : fe s = FServing |- _ =>
        destruct (launched_means_loaded s Hinv) as (_ & Hall & Hlen);
        [now rewrite H|auto]
    end.
Qed.

(** C5: along a run every worker has at most one request in flight (in its
    queue or being handled); [on_submit] puts exactly one tuple on each
    request queue, and at that moment no worker has a request waiting or in
    hand; while [on_submit] is at [response_queue.get()] the front end does
    nothing else until a result is on the response queue, which it then takes:
    there is no other way out, no timeout and no cancellation. *)
Theorem one_request_in_flight (s : sys) :
  reachable s ->
  Forall (fun w => (in_flight w <= 1)%nat) (workers s) /\
  (forall submitted s', step s (LSubmit submitted) s' ->
     Forall (fun w => in_flight w = 0%nat) (workers s) /\
     response_queue s = [] /\
     fe s' = FInSubmit /\
     List.map w_requests (workers s')
     = List.map (fun w => w_requests w ++ [VTuple submitted]) (workers s)) /\
  (fe s = FInSubmit ->
     forall l s', step s l s' -> fe s' <> FInSubmit ->
       exists result rest,
         response_queue s = result :: rest /\
         response_queue s' = rest /\
         l = LReturn (on_submit_result result) /\
         fe s' = FServing).
Proof.
  intros Hreach. pose proof (flight_inv_reachable s Hreach) as Hinv.
  split; [|split].
  - unfold flight_inv in Hinv.
    destruct (fe s); destruct Hinv as [Hall _];
      (eapply Forall_impl; [|exact Hall]); cbn beta; intros w Hw; lia.
  - intros submitted s' Hstep. inversion Hstep; subst.
    unfold flight_inv in Hinv.
    match goal with H : fe s = FServing |- _ => rewrite H in Hinv end.
    destruct Hinv as [Hall Hresp]. cbn [fe workers].
    repeat split; try assumption. now rewrite map_map.
  - intros Hfe l s' Hstep Hout.
    destruct Hstep; cbn [fe response_queue] in *; try congruence.
    destruct (response_queue s) as [|r q]; [discriminate|].
    match goal with
    | H : queue_get _ = Some _ |- _ => injection H as -> ->
    end.
    eauto 6.
Qed.

(** ** The requests of a run *)

Lemma click_tuple_unpacks (item : value) :
  click_tuple item -> exists req, unpack_request item = Ok req.
Proof. intros [ui ->]. eexists. reflexivity. Qed.

Lemma requests_inv_step (s s' : sys) (l : label) :
  requests_inv s -> step s l s' -> requests_inv s'.
Proof.
  unfold requests_inv. intros Hinv Hstep.
  destruct Hstep as
    [ s e Hfe Hguard
    | s Hfe Hguard
    | s i g Hfe Hi
    | s i Hfe Hi
    | s Hfe Hrel
    | s ui Hfe
    | s result rest Hfe Hget
    | s pre w post ld st' Hws Hpc Hload
    | s pre w post e st' Hws Hpc Hload
    | s pre w post ld Hws Hpc Hrel
    | s pre w post ld item rest Hws Hpc Hget
    | s pre w post ld item ending rq' st' Hws Hpc Hturn ];
    cbn [workers]; try exact Hinv.
  - apply Forall_app. split; [exact Hinv|]. now repeat constructor.
  - apply Forall_map. eapply Forall_impl; [|exact Hinv]. cbn beta.
    intros w [Hqueue Hhand]. cbn [w_requests w_pc]. split; [|exact Hhand].
    apply Forall_app. split; [exact Hqueue|]. repeat constructor. now exists ui.
  - rewrite Hws in Hinv. eapply Forall_replace; [exact Hinv|].
    cbn [w_requests w_pc]. split; [|exact I].
    exact (proj1 (Forall_middle _ _ _ _ Hinv)).
  - rewrite Hws in Hinv. eapply Forall_replace; [exact Hinv|].
    cbn [w_requests w_pc]. split; [|exact I].
    exact (proj1 (Forall_middle _ _ _ _ Hinv)).
  - rewrite Hws in Hinv. eapply Forall_replace; [exact Hinv|].
    unfold set_pc. cbn [w_requests w_pc]. split; [|exact I].
    exact (proj1 (Forall_middle _ _ _ _ Hinv)).
  - rewrite Hws in Hinv. eapply Forall_replace; [exact Hinv|].
    cbn [w_requests w_pc].
    pose proof (proj1 (Forall_middle _ _ _ _ Hinv)) as Hqueue.
    destruct (w_requests w) as [|x xs]; [discriminate Hget|].
    injection Hget as -> ->. inversion Hqueue; subst. now split.
  - rewrite Hws in Hinv. eapply Forall_replace; [exact Hinv|].
    cbn [w_requests w_pc]. split.
    + exact (proj1 (Forall_middle _ _ _ _ Hinv)).
    + now destruct ending.
Qed.

Lemma requests_inv_reachable (s : sys) : reachable s -> requests_inv s.
Proof.
  induction 1 as [|s l s' _ IH Hstep].
  - constructor.
  - exact (requests_inv_step s s' l IH Hstep).
Qed.

(** C1 (as amended): along a run, for every request that a worker has taken
    from its queue, if the handling raises an exception that derives from
    [Exception], the turn of the loop prints the traceback, puts
    [ModelFailure()] on the response queue and goes back to
    [request_queue.get()]: the worker is idle again, not terminated. *)
Theorem worker_catches_exceptions (s : sys) (pre post : list worker)
    (w : worker) (ld : Loaded) (item : value) :
  reachable s ->
  workers s = pre ++ w :: post ->
  w_pc w = WBusy ld item ->
  exists req,
    unpack_request item = Ok req /\
    forall (e : exc) (st' : wstate),
      handle_request ld (w_rank w) req (w_state w) = (Raise e, st') ->
      is_Exception (exc_cls e) = true ->
      loop_turn ld (w_rank w) item
                (if gets_response_queue (w_rank w)
                 then Some (response_queue s) else None)
                (w_state w)
      = (NextRequest, Some (response_queue s ++ [VModelFailure]),
         mkW (gen st') (trace st' ++ [EvPrint (Traceback e)])) /\
      step s (LTurn (List.length pre))
           (mkSys (fe s)
                  (pre ++ mkWorker (w_rank w) (WIdle ld) (w_requests w)
                            (mkW (gen st') (trace st' ++ [EvPrint (Traceback e)]))
                          :: post)
                  (response_queue s ++ [VModelFailure]) (mp_barrier s)).
Proof.
  intros Hreach Hws Hpc.
  pose proof (requests_inv_reachable s Hreach) as Hreq.
  unfold requests_inv in Hreq. rewrite Hws in Hreq.
  pose proof (proj2 (Forall_middle _ _ _ _ Hreq)) as Hitem.
  rewrite Hpc in Hitem.
  destruct (click_tuple_unpacks item Hitem) as [req Hunpack].
  destruct (startup_inv_single s pre post w (startup_inv_reachable s Hreach) Hws)
    as (_ & _ & Hrank).
  exists req. split; [exact Hunpack|]. intros e st' Hraise Hexc.
  assert (Hturn : loop_turn ld (w_rank w) item
                    (if gets_response_queue (w_rank w)
                     then Some (response_queue s) else None)
                    (w_state w)
                  = (NextRequest, Some (response_queue s ++ [VModelFailure]),
                     mkW (gen st') (trace st' ++ [EvPrint (Traceback e)]))).
  { rewrite Hrank. change (gets_response_queue 0) with true. cbv iota.
    rewrite Hrank in Hraise.
    exact (loop_turn_catches ld 0 item req (response_queue s) (w_state w) st' e
             Hunpack Hraise Hexc). }
  split; [exact Hturn|].
  exact (step_turn s pre w post ld item NextRequest
           (Some (response_queue s ++ [VModelFailure]))
           (mkW (gen st') (trace st' ++ [EvPrint (Traceback e)])) Hws Hpc Hturn).
Qed.

(** ** Further facts on a turn of the loop *)

Lemma loop_turn_response (ld : Loaded) (rank : Z) (item : value) (q : list value)
    (st st' : wstate) (ending : turn_end) (rq' : option (list value)) :
  loop_turn ld rank item (Some q) st = (ending, rq', st') ->
  match ending with
  | NextRequest =>
      exists v, rq' = Some (q ++ [v]) /\
                (v = VModelFailure \/ exists img, v = VImage img)
  | Terminated _ => rq' = Some q
  end.
Proof.
  unfold loop_turn. destruct (unpack_request item) as [req|e].
  - destruct (handle_request ld rank req st) as [[img|e] st1].
    + intros H. injection H as <- <- _. exists (VImage img). eauto.
    + destruct (is_Exception (exc_cls e)); intros H; injection H as <- <- _.
      * exists VModelFailure. auto.
      * reflexivity.
  - intros H. injection H as <- <- _. reflexivity.
Qed.

(** X1: a worker started without the response queue ([None], every rank
    but 0) answers nothing when a request succeeds and goes on; when a request
    raises an [Exception] it prints the traceback and then ends, because the
    handler calls [put] on [None] without the guard of the success path. *)
Theorem worker_without_response_queue (ld : Loaded) (rank : Z) (item : value)
    (req : Request) (st : wstate) :
  unpack_request item = Ok req ->
  (forall img st',
      handle_request ld rank req st = (Ok img, st') ->
      loop_turn ld rank item None st = (NextRequest, None, st')) /\
  (forall e st',
      handle_request ld rank req st = (Raise e, st') ->
      is_Exception (exc_cls e) = true ->
      loop_turn ld rank item None st
      = (Terminated (mkExc AttributeError ["'NoneType' object has no attribute 'put'"]),
         None, mkW (gen st') (trace st' ++ [EvPrint (Traceback e)]))).
Proof.
  intros Hunpack. unfold loop_turn. rewrite Hunpack. split.
  - intros img st' ->. reflexivity.
  - intros e st' -> ->. reflexivity.
Qed.

Lemma unpack_request_needs_nine (item : value) (req : Request) :
  unpack_request item = Ok req ->
  exists items, iter_items item = Ok items /\ List.length items = 9%nat.
Proof.
  unfold unpack_request. destruct (iter_items item) as [items|e]; [|discriminate].
  cbn [rbind]. intros H. exists items. split; [reflexivity|].
  do 9 (destruct items as [|? items]; [discriminate H|]).
  destruct items; [reflexivity|discriminate H].
Qed.

(** X2: the unpacking at the top of the loop stands outside the [try]: an
    item that is not an iterable of exactly nine elements raises [TypeError]
    or [ValueError] there, and the turn ends the worker with that exception,
    nothing printed and nothing put on the response queue. *)
Theorem malformed_request_ends_worker (ld : Loaded) (rank : Z) (item : value)
    (rq : option (list value)) (st : wstate) :
  (forall items, iter_items item = Ok items -> List.length items <> 9%nat) ->
  exists e,
    unpack_request item = Raise e /\
    (exc_cls e = TypeError \/ exc_cls e = ValueError) /\
    loop_turn ld rank item rq st = (Terminated e, rq, st).
Proof.
  intros Hnot. destruct (unpack_request item) as [req|e] eqn:Hunpack.
  - destruct (unpack_request_needs_nine item req Hunpack) as (items & Hitems & Hlen).
    exfalso. exact (Hnot items Hitems Hlen).
  - exists e. split; [reflexivity|]. split.
    + unfold unpack_request in Hunpack.
      destruct (iter_items item) as [items|e0] eqn:Hitems.
      * cbn [rbind] in Hunpack. right.
        do 9 (destruct items as [|? items];
              [injection Hunpack as <-; reflexivity|]).
        destruct items; [discriminate Hunpack|injection Hunpack as <-; reflexivity].
      * cbn [rbind] in Hunpack. injection Hunpack as <-. left.
        destruct item; try discriminate Hitems; injection Hitems as <-; reflexivity.
    + unfold loop_turn. now rewrite Hunpack.
Qed.

(** X17: a request refused before line 131 (the sampler set-up, the
    resolution or [int(seed)] raises) leaves the worker as it was: the
    generator is not reseeded, nothing is drawn and nothing is printed. *)
Theorem early_failure_leaves_state (ld : Loaded) (rank : Z) (req : Request)
    (st : wstate) :
  (forall e,
      create_sample_fn args (solver req) (num_sampling_steps req) (t_shift req) = Raise e ->
      handle_request ld rank req st = (Raise e, st)) /\
  (forall fn e,
      create_sample_fn args (solver req) (num_sampling_steps req) (t_shift req) = Ok fn ->
      parse_resolution (resolution req) = Raise e ->
      handle_request ld rank req st = (Raise e, st)) /\
  (forall fn wh e,
      create_sample_fn args (solver req) (num_sampling_steps req) (t_shift req) = Ok fn ->
      parse_resolution (resolution req) = Ok wh ->
      int (seed req) = Raise e ->
      handle_request ld rank req st = (Raise e, st)).
Proof.
  unfold handle_request, draw_noise, bind, lift. repeat split.
  - intros e ->. reflexivity.
  - intros fn e -> ->. reflexivity.
  - intros fn [w h] e -> -> ->. reflexivity.
Qed.

(** ** Further facts on the noise, the keyword arguments and the loading *)



Lemma size16_zero (size : Z) : (size / 16) ^ 2 = 0 <-> 0 <= size < 16.
Proof.
  split.
  - intros H. assert (size / 16 = 0) by nia.
    apply Z.div_small_iff in H0; lia.
  - intros H. now rewrite Z.div_small.
Qed.

(** X12: the keyword arguments are built without error except for the
    division of [ntk_factor]: [ZeroDivisionError] is raised exactly when ntk
    scaling is on and [image_size] lies in 0..15; otherwise [base_seqlen] is
    set exactly when proportional attention is on, [ntk_factor] exactly when
    ntk scaling is on, and [ntk_factor] is 1 when width and height have as
    many blocks of 16 as [image_size]. *)
Theorem build_kwargs_outcome (ld : Loaded) (req : Request) (w h : Z)
    (cap_feats : Feats) (tok_mask : list (list bool)) :
  (build_kwargs ld req w h cap_feats tok_mask
   = Raise (mkExc ZeroDivisionError ["division by zero"])
   <-> truthy (ntk_scaling req) = true /\ 0 <= image_size (l_train_args ld) < 16) /\
  (truthy (ntk_scaling req) = false \/ ~ 0 <= image_size (l_train_args ld) < 16 ->
   exists kw,
     build_kwargs ld req w h cap_feats tok_mask = Ok kw /\
     kw_cap_feats _ kw = cap_feats /\
     kw_cap_mask _ kw = tok_mask /\
     kw_cfg_scale _ kw = cfg_scale req /\
     (kw_base_seqlen _ kw <> None <-> truthy (proportional_attn req) = true) /\
     (kw_ntk_factor _ kw <> None <-> truthy (ntk_scaling req) = true) /\
     (forall f, kw_ntk_factor _ kw = Some f ->
                w / 16 = image_size (l_train_args ld) / 16 ->
                h / 16 = image_size (l_train_args ld) / 16 ->
                (f == 1)%Q)).
Proof.
  pose proof (size16_zero (image_size (l_train_args ld))) as Hzero.
  unfold build_kwargs. split.
  - destruct (truthy (ntk_scaling req)).
    + destruct (Z.eqb_spec ((image_size (l_train_args ld) / 16) ^ 2) 0) as [Hz|Hnz].
      * split; [intros _; split; [reflexivity|now apply Hzero]|reflexivity].
      * split; [discriminate|]. intros [_ Hsmall]. exfalso. now apply Hnz, Hzero.
    + split; [discriminate|]. intros [Hf _]. discriminate Hf.
  - intros Hok. destruct (truthy (ntk_scaling req)).
    + destruct (Z.eqb_spec ((image_size (l_train_args ld) / 16) ^ 2) 0) as [Hz|Hnz].
      * exfalso. destruct Hok as [Hf|Hbig]; [discriminate Hf|]. now apply Hbig, Hzero.
      * eexists. split; [reflexivity|]. cbn.
        repeat split; try discriminate; try reflexivity.
        -- destruct (truthy (proportional_attn req)); [reflexivity|contradiction].
        -- destruct (truthy (proportional_attn req)); [discriminate|intros H; discriminate H].
        -- intros f Hf Hw Hh. injection Hf as <-. rewrite Hw, Hh.
           unfold Qeq. cbn [Qnum Qden].
           assert (0 < (image_size (l_train_args ld) / 16) ^ 2) by nia.
           rewrite Z2Pos.id by assumption. lia.
    + eexists. split; [reflexivity|]. cbn.
      repeat split; try discriminate; try reflexivity; try contradiction.
      * destruct (truthy (proportional_attn req)); [reflexivity|contradiction].
      * destruct (truthy (proportional_attn req)); [discriminate|intros H; discriminate H].
Qed.


(** X9: when the checkpoint was trained with a [model_parallel_size] other
    than [num_gpus], [model_main] raises [AssertionError] once the DiT is
    created, before it reads any weight file: neither [LoadCheckpoint] nor
    [LoadStateDict] has run. *)
Theorem parallel_size_mismatch_asserts (rank : Z) (st : wstate) (ta : TrainArgs)
    (dt : dtype) :
  (forall s, In s stages_until_dit -> run_stage s = None) ->
  load_model_args (ckpt args) = Ok ta ->
  dtype_of_precision (precision args) = Ok dt ->
  num_gpus args <= 1 ->
  model_parallel_size ta <> num_gpus args ->
  model_main_load rank st
  = (Raise (mkExc AssertionError []),
     mkW (gen st) (trace st ++ trace_until_dit rank ta)) /\
  ~ In (EvStage LoadCheckpoint) (trace_until_dit rank ta) /\
  ~ In (EvStage LoadStateDict) (trace_until_dit rank ta).
Proof.
  intros Hstages Hta Hdt Hn Hsize.
  assert (Hgt : (num_gpus args >? 1) = false).
  { destruct (Z.gtb_spec (num_gpus args) 1); [lia|reflexivity]. }
  assert (Hne : (model_parallel_size ta =? num_gpus args) = false)
    by now apply Z.eqb_neq.
  split; [|split].
  - unfold model_main_load, trace_until_dit, trace_until_lm,
      bind, stage, lift, when, print, emit, raise, ret.
    rewrite (Hstages InitProcessGroup), (Hstages InitModelParallel),
      (Hstages SetDevice), (Hstages CreateLM), (Hstages CreateTokenizer),
      (Hstages CreateVAE), (Hstages CreateDiT), Hta, Hdt, Hgt, Hne
      by (cbn; auto 10).
    destruct (rank =? 0); cbn [gen trace]; repeat rewrite <- app_assoc; reflexivity.
  - unfold trace_until_dit, trace_until_lm. destruct (rank =? 0); cbn;
      intros H; repeat (destruct H as [H|H]; [discriminate H|]); exact H.
  - unfold trace_until_dit, trace_until_lm. destruct (rank =? 0); cbn;
      intros H; repeat (destruct H as [H|H]; [discriminate H|]); exact H.
Qed.

(** ** Pending submissions *)

Lemma answer_inv_worker_moves (s : sys) (pre post : list worker)
    (w w' : worker) (b : barrier) :
  answer_inv s ->
  workers s = pre ++ w :: post ->
  terminated w = false ->
  terminated w' = false ->
  in_flight w' = in_flight w ->
  answer_inv (mkSys (fe s) (pre ++ w' :: post) (response_queue s) b).
Proof.
  unfold answer_inv. intros Hinv Hws Hw Hw' Hsame. cbn [fe workers response_queue].
  rewrite Hws in Hinv. eapply Forall_replace; [exact Hinv|].
  pose proof (Forall_middle _ _ _ _ Hinv) as Hmid. cbn beta in Hmid.
  destruct (fe s); try exact Hw'.
  destruct Hmid as [[Ht _]|[_ Hsum]]; [congruence|].
  right. split; [exact Hw'|]. now rewrite Hsame.
Qed.

Lemma answer_inv_step (s s' : sys) (l : label) :
  startup_inv s -> flight_inv s -> answer_inv s -> step s l s' -> answer_inv s'.
Proof.
  intros Hstart Hflight Hinv Hstep.
  destruct Hstep as
    [ s e Hfe Hguard
    | s Hfe Hguard
    | s i g Hfe Hi
    | s i Hfe Hi
    | s Hfe Hrel
    | s ui Hfe
    | s result rest Hfe Hget
    | s pre w post ld st' Hws Hpc Hload
    | s pre w post e st' Hws Hpc Hload
    | s pre w post ld Hws Hpc Hrel
    | s pre w post ld item rest Hws Hpc Hget
    | s pre w post ld item ending rq' st' Hws Hpc Hturn ].
  - unfold answer_inv in *. rewrite Hfe in Hinv. exact Hinv.
  - unfold answer_inv in *. rewrite Hfe in Hinv. exact Hinv.
  - unfold answer_inv in *. rewrite Hfe in Hinv. cbn [fe workers].
    apply Forall_app. split; [exact Hinv|]. now repeat constructor.
  - unfold answer_inv in *. rewrite Hfe in Hinv. exact Hinv.
  - unfold answer_inv in *. rewrite Hfe in Hinv. exact Hinv.
  - (* on_submit puts the request *)
    unfold answer_inv, flight_inv in *. rewrite Hfe in Hinv, Hflight.
    cbn [fe workers response_queue]. destruct Hflight as [Hall Hresp].
    rewrite Hresp. apply Forall_map. rewrite Forall_forall in *.
    intros w Hin. right. split; [exact (Hinv w Hin)|].
    specialize (Hall w Hin). unfold in_flight, busy in *.
    cbn [w_requests w_pc List.length]. rewrite length_app. cbn [List.length]. lia.
  - (* on_submit returns *)
    unfold answer_inv in *. rewrite Hfe in Hinv. cbn [fe workers response_queue].
    destruct (response_queue s) as [|r q]; [discriminate Hget|].
    eapply Forall_impl; [|exact Hinv]. cbn beta.
    intros w [(_ & _ & Hnil)|[Ht _]]; [discriminate Hnil|exact Ht].
  - eapply answer_inv_worker_moves; eauto;
      unfold terminated, in_flight, busy; cbn [w_pc w_requests]; now rewrite Hpc.
  - eapply answer_inv_worker_moves; eauto;
      unfold terminated, in_flight, busy; cbn [w_pc w_requests]; now rewrite Hpc.
  - eapply answer_inv_worker_moves; eauto;
      unfold terminated, in_flight, busy, set_pc; cbn [w_pc w_requests]; now rewrite Hpc.
  - eapply answer_inv_worker_moves; eauto;
      unfold terminated, in_flight, busy; cbn [w_pc w_requests]; rewrite Hpc;
      try reflexivity.
    destruct (w_requests w) as [|x xs]; [discriminate Hget|].
    injection Hget as -> ->. cbn [List.length]. lia.
  - (* a worker ends a turn of its loop *)
    destruct (startup_inv_single s pre post w Hstart Hws) as (-> & -> & Hrank).
    rewrite Hrank in *. change (gets_response_queue 0) with true in Hturn.
    cbv iota in Hturn.
    pose proof (loop_turn_response _ _ _ _ _ _ _ _ Hturn) as Hresp.
    unfold answer_inv, flight_inv in *. rewrite Hws in Hinv, Hflight.
    cbn [app] in *. cbn [fe workers response_queue].
    assert (Hbusy : in_flight w = S (List.length (w_requests w))).
    { unfold in_flight, busy. rewrite Hpc. lia. }
    assert (Hlive : terminated w = false) by (unfold terminated; now rewrite Hpc).
    destruct (fe s); destruct Hflight as [Hall _];
      apply Forall_inv in Hall; rewrite Hbusy in Hall; try discriminate Hall.
    apply Forall_inv in Hinv. destruct Hinv as [[Ht _]|[_ Hsum]]; [congruence|].
    rewrite Hbusy in Hsum.
    destruct (w_requests w) as [|x xs] eqn:Hreq; [|cbn [List.length] in Hsum; lia].
    destruct (response_queue s) as [|r q] eqn:Hq; [|cbn [List.length] in Hsum; lia].
    constructor; [|constructor].
    destruct ending as [|e].
    + destruct Hresp as (v & -> & _). right. split; [reflexivity|].
      unfold in_flight, busy. cbn [w_requests w_pc app List.length]. lia.
    + rewrite Hresp. left. repeat split.
Qed.

Lemma answer_inv_reachable (s : sys) : reachable s -> answer_inv s.
Proof.
  induction 1 as [|s l s' Hreach IH Hstep].
  - constructor.
  - exact (answer_inv_step s s' l (startup_inv_reachable s Hreach)
             (flight_inv_reachable s Hreach) IH Hstep).
Qed.

Lemma reachable_run (s s' : sys) : reachable s -> run s s' -> reachable s'.
Proof.
  intros Hreach Hrun. induction Hrun as [s|s l s' s'' Hstep _ IH].
  - exact Hreach.
  - apply IH. exact (reachable_step s l s' Hreach Hstep).
Qed.

(** The worker of a run whose front end has reached the barrier. *)
Lemma front_arrived_one_worker (s : sys) :
  startup_inv s -> front_arrived (fe s) = true ->
  exists w, workers s = [w] /\ w_rank w = 0.
Proof.
  unfold startup_inv. intros Hinv Hfa.
  destruct (fe s); try discriminate Hfa;
    (destruct Hinv as (Hn & _ & _ & _ & _ & _ & Hlen & _ & _ & Hranks);
     specialize (Hlen eq_refl); rewrite Hn in Hlen;
     destruct (workers s) as [|w [|w2 ws]]; cbn [List.length] in Hlen; try lia;
     exists w; split; [reflexivity|exact (Forall_inv Hranks)]).
Qed.

Lemma loop_turn_terminates (ld : Loaded) (rank : Z) (item : value) (req : Request)
    (q : list value) (st st' : wstate) (e : exc) (rq' : option (list value)) :
  unpack_request item = Ok req ->
  loop_turn ld rank item (Some q) st = (Terminated e, rq', st') ->
  is_Exception (exc_cls e) = false /\
  handle_request ld rank req st = (Raise e, st').
Proof.
  intros Hunpack. unfold loop_turn. rewrite Hunpack.
  destruct (handle_request ld rank req st) as [[img|e0] st1]; [discriminate|].
  destruct (is_Exception (exc_cls e0)) eqn:Hexc; [discriminate|].
  intros H. injection H as <- _ <-. now split.
Qed.

(** X3: along a run, a turn of the worker loop happens only under a waiting
    [on_submit] with an empty response queue, and it ends in one of two ways:
    the worker is idle again with an empty request queue and the response
    queue holds exactly one object, an image or [ModelFailure]; or the worker
    has terminated on an exception that does not derive from [Exception] and
    the response queue is still empty. *)
Theorem turn_answers_or_terminates (s s' : sys) (i : nat) :
  reachable s ->
  step s (LTurn i) s' ->
  fe s = FInSubmit /\ fe s' = FInSubmit /\ response_queue s = [] /\
  ((exists v w' ld,
      response_queue s' = [v] /\
      (v = VModelFailure \/ exists img, v = VImage img) /\
      workers s' = [w'] /\ w_pc w' = WIdle ld /\ w_requests w' = []) \/
   (exists e w',
      response_queue s' = [] /\
      workers s' = [w'] /\ w_pc w' = WTerminated e /\
      is_Exception (exc_cls e) = false)).
Proof.
  intros Hreach Hstep.
  pose proof (startup_inv_reachable s Hreach) as Hstart.
  pose proof (flight_inv_reachable s Hreach) as Hflight.
  pose proof (requests_inv_reachable s Hreach) as Hreq.
  inversion Hstep as [ | | | | | | | | | |
                     | s0 pre w post ld item ending rq' st' Hws Hpc Hturn ]; subst.
  destruct (startup_inv_single s pre post w Hstart Hws) as (-> & -> & Hrank).
  rewrite Hrank in *. change (gets_response_queue 0) with true in Hturn.
  cbv iota in Hturn. cbn [app] in *.
  unfold requests_inv in Hreq. rewrite Hws in Hreq.
  pose proof (proj2 (Forall_inv Hreq)) as Hitem. rewrite Hpc in Hitem.
  destruct (click_tuple_unpacks item Hitem) as [req Hunpack].
  pose proof (loop_turn_response _ _ _ _ _ _ _ _ Hturn) as Hresp.
  unfold flight_inv in Hflight. rewrite Hws in Hflight.
  assert (Hbusy : in_flight w = S (List.length (w_requests w))).
  { unfold in_flight, busy. rewrite Hpc. lia. }
  cbn [fe workers response_queue].
  destruct (fe s) eqn:Hfe; destruct Hflight as [Hall Hlen];
    apply Forall_inv in Hall; rewrite Hbusy in Hall; try discriminate Hall.
  destruct (w_requests w) as [|x xs] eqn:Hq; [|cbn [List.length] in Hall; lia].
  destruct (response_queue s) as [|r q] eqn:Hr; [|cbn [List.length] in Hall; lia].
  repeat (split; [reflexivity|]).
  destruct ending as [|e].
  - left. destruct Hresp as (v & -> & Hv). cbn [app].
    eexists v, _, ld. repeat split; try reflexivity. exact Hv.
  - right. rewrite Hresp.
    destruct (loop_turn_terminates _ _ _ _ _ _ _ _ _ Hunpack Hturn) as [Hexc _].
    eexists e, _. repeat split; try reflexivity. exact Hexc.
Qed.

(** X4: a worker that has terminated in its loop leaves the run stuck: the
    front end is inside [on_submit] at [response_queue.get()], the response
    queue is empty, and no process can take a step any more: the submission
    waits for ever. *)
Theorem terminated_worker_blocks_submission (s : sys) (w : worker) :
  reachable s ->
  In w (workers s) ->
  terminated w = true ->
  fe s = FInSubmit /\ response_queue s = [] /\ workers s = [w] /\
  forall l s', ~ step s l s'.
Proof.
  intros Hreach Hin Hterm.
  pose proof (startup_inv_reachable s Hreach) as Hstart.
  pose proof (answer_inv_reachable s Hreach) as Hans.
  destruct (in_split w (workers s) Hin) as (pre & post & Hws).
  destruct (startup_inv_single s pre post w Hstart Hws) as (-> & -> & _).
  cbn [app] in Hws.
  unfold answer_inv in Hans. rewrite Hws in Hans. apply Forall_inv in Hans.
  assert (Hpc : exists e, w_pc w = WTerminated e).
  { unfold terminated in Hterm. destruct (w_pc w); try discriminate Hterm. eauto. }
  destruct Hpc as [e Hpc].
  destruct (fe s) eqn:Hfe; try congruence.
  destruct Hans as [(_ & _ & Hresp)|[Hlive _]]; [|congruence].
  repeat split; try assumption.
  intros l s' Hstep.
  destruct Hstep as
    [ s e0 Hfe0 Hguard
    | s Hfe0 Hguard
    | s i g Hfe0 Hi
    | s i Hfe0 Hi
    | s Hfe0 Hrel
    | s ui Hfe0
    | s result rest Hfe0 Hget
    | s pre w0 post ld st' Hws0 Hpc0 Hload
    | s pre w0 post e0 st' Hws0 Hpc0 Hload
    | s pre w0 post ld Hws0 Hpc0 Hrel
    | s pre w0 post ld item rest Hws0 Hpc0 Hget
    | s pre w0 post ld item ending rq' st' Hws0 Hpc0 Hturn ];
    try congruence;
    try (rewrite Hresp in Hget; discriminate Hget);
    (rewrite Hws in Hws0;
     destruct pre as [|p pre];
     [injection Hws0 as <- _; congruence
     |injection Hws0 as _ Hnil; destruct pre; discriminate Hnil]).
Qed.

Lemma load_failed_persists (s s' : sys) (l : label) :
  step s l s' ->
  Exists (fun w => load_failed w = true) (workers s) ->
  Exists (fun w => load_failed w = true) (workers s').
Proof.
  intros Hstep Hex.
  destruct Hstep as
    [ s e Hfe Hguard
    | s Hfe Hguard
    | s i g Hfe Hi
    | s i Hfe Hi
    | s Hfe Hrel
    | s ui Hfe
    | s result rest Hfe Hget
    | s pre w post ld st' Hws Hpc Hload
    | s pre w post e st' Hws Hpc Hload
    | s pre w post ld Hws Hpc Hrel
    | s pre w post ld item rest Hws Hpc Hget
    | s pre w post ld item ending rq' st' Hws Hpc Hturn ];
    cbn [workers]; try exact Hex;
    try (apply Exists_app; now left);
    try (apply Exists_exists in Hex as (w0 & Hin & Hw0);
         apply Exists_exists; eexists; split;
         [apply in_map; exact Hin|exact Hw0]);
    (rewrite Hws in Hex; apply Exists_app in Hex as [Hpre|Hpost];
     [apply Exists_app; now left|];
     apply Exists_app; right; inversion Hpost as [? ? Hw|? ? Htail]; subst;
     [unfold load_failed in Hw; rewrite Hpc in Hw; discriminate Hw
     |now apply Exists_cons_tl]).
Qed.

Lemma load_failed_blocks (s : sys) :
  reachable s ->
  Exists (fun w => load_failed w = true) (workers s) ->
  released (mp_barrier s) = false /\
  front_launched (fe s) = false /\
  Forall (fun w => in_loop w = false) (workers s).
Proof.
  intros Hreach Hex. pose proof (startup_inv_reachable s Hreach) as Hinv.
  apply Exists_exists in Hex as (w & Hin & Hw).
  destruct (in_split w (workers s) Hin) as (pre & post & Hws).
  assert (Harr : arrived w = false).
  { unfold load_failed in Hw. unfold arrived. now destruct (w_pc w). }
  pose proof (count_arrived_missing pre post w Harr) as Hmiss.
  unfold startup_inv in Hinv. rewrite Hws in Hinv.
  assert (Hrel : released (mp_barrier s) = false /\
                 (front_launched (fe s) = true -> released (mp_barrier s) = true) /\
                 Forall (fun w => in_loop w = true -> released (mp_barrier s) = true)
                        (pre ++ w :: post)).
  { destruct (fe s); try (destruct pre; discriminate Hinv);
      (destruct Hinv as (Hn & Hp & Hc & Hr & Hlen & _ & _ & Hfl & Hall & _);
       split; [|split; assumption];
       rewrite Hr; apply Z.eqb_neq; rewrite Hc, Hp;
       destruct (front_arrived _); lia). }
  destruct Hrel as (Hrel & Hfl & Hall). rewrite Hws. split; [exact Hrel|]. split.
  - destruct (front_launched (fe s)); [|reflexivity].
    specialize (Hfl eq_refl). congruence.
  - eapply Forall_impl; [|exact Hall]. cbn beta. intros w0 Hw0.
    destruct (in_loop w0); [|reflexivity]. specialize (Hw0 eq_refl). congruence.
Qed.

(** X5: once the loading of a worker has raised, whatever happens next the
    barrier never releases: the front end does not launch the UI and no
    worker enters its request loop.  The failure of a worker to load is not
    reported to the front end: the demo hangs at the barrier. *)
Theorem load_failure_blocks_launch (s s' : sys) :
  reachable s ->
  Exists (fun w => load_failed w = true) (workers s) ->
  run s s' ->
  Exists (fun w => load_failed w = true) (workers s') /\
  released (mp_barrier s') = false /\
  front_launched (fe s') = false /\
  Forall (fun w => in_loop w = false) (workers s').
Proof.
  intros Hreach Hex Hrun.
  assert (Hex' : Exists (fun w => load_failed w = true) (workers s')).
  { clear Hreach. induction Hrun as [s|s l s1 s2 Hstep _ IH]; [exact Hex|].
    apply IH. exact (load_failed_persists s s1 l Hstep Hex). }
  split; [exact Hex'|].
  exact (load_failed_blocks s' (reachable_run s s' Hreach Hrun) Hex').
Qed.

(** One more step towards the answer of a pending submission. *)
Lemma pending_step (s : sys) :
  reachable s ->
  fe s = FInSubmit ->
  Forall (fun w => terminated w = false) (workers s) ->
  exists l s',
    step s l s' /\
    (fe s' = FServing \/
     (fe s' = FInSubmit /\
      (Exists (fun w => terminated w = true) (workers s') \/
       (Forall (fun w => terminated w = false) (workers s') /\
        (distance s' < distance s)%nat)))).
Proof.
  intros Hreach Hfe Hlive.
  pose proof (startup_inv_reachable s Hreach) as Hstart.
  pose proof (answer_inv_reachable s Hreach) as Hans.
  destruct (front_arrived_one_worker s Hstart) as (w & Hws & Hrank);
    [now rewrite Hfe|].
  destruct (launched_means_loaded s Hstart) as (Hrel & Harr & _);
    [now rewrite Hfe|].
  unfold answer_inv in Hans. rewrite Hfe, Hws in Hans. apply Forall_inv in Hans.
  rewrite Hws in Hlive, Harr. apply Forall_inv in Hlive. apply Forall_inv in Harr.
  destruct Hans as [[Ht _]|[_ Hsum]]; [congruence|].
  destruct (response_queue s) as [|r q] eqn:Hq.
  - (* the answer is not there yet *)
    cbn [List.length] in Hsum. unfold in_flight, busy in Hsum.
    unfold arrived in Harr. unfold terminated in Hlive.
    unfold distance. rewrite Hq, Hws.
    destruct (w_pc w) as [|ld|ld|ld item|e|e] eqn:Hpc;
      try discriminate Harr; try discriminate Hlive.
    + (* at the barrier *)
      eexists _, _. split;
        [exact (step_enter_loop s [] w [] ld Hws Hpc Hrel)|].
      right. cbn [fe workers response_queue app]. split; [exact Hfe|]. right.
      rewrite Hq. unfold set_pc. cbn [w_pc]. split; [|lia].
      constructor; [reflexivity|constructor].
    + (* about to take the request *)
      destruct (w_requests w) as [|x xs] eqn:Hreq; [cbn in Hsum; lia|].
      eexists _, _. split;
        [exact (step_get s [] w [] ld x xs Hws Hpc
                  ltac:(rewrite Hreq; reflexivity))|].
      right. cbn [fe workers response_queue app]. split; [exact Hfe|]. right.
      rewrite Hq. cbn [w_pc]. split; [|lia].
      constructor; [reflexivity|constructor].
    + (* handling the request *)
      destruct (loop_turn ld (w_rank w) item
                  (if gets_response_queue (w_rank w)
                   then Some (response_queue s) else None) (w_state w))
        as [[ending rq'] st'] eqn:Hturn.
      eexists _, _. split;
        [exact (step_turn s [] w [] ld item ending rq' st' Hws Hpc Hturn)|].
      right. cbn [fe workers response_queue app]. split; [exact Hfe|].
      rewrite Hrank in Hturn. change (gets_response_queue 0) with true in Hturn.
      cbv iota in Hturn. rewrite Hq in Hturn.
      pose proof (loop_turn_response _ _ _ _ _ _ _ _ Hturn) as Hresp.
      destruct ending as [|e].
      * right. destruct Hresp as (v & -> & _). cbn [app]. split; [|lia].
        constructor; [reflexivity|constructor].
      * left. constructor. reflexivity.
  - (* the answer is on the response queue *)
    eexists _, _. split;
      [exact (step_return s r q Hfe ltac:(rewrite Hq; reflexivity))|].
    left. reflexivity.
Qed.

Lemma pending_run (n : nat) (s : sys) :
  (distance s < n)%nat ->
  reachable s ->
  fe s = FInSubmit ->
  Forall (fun w => terminated w = false) (workers s) ->
  exists s',
    run s s' /\
    (fe s' = FServing \/ Exists (fun w => terminated w = true) (workers s')).
Proof.
  revert s. induction n as [|n IH]; intros s Hd Hreach Hfe Hlive; [lia|].
  destruct (pending_step s Hreach Hfe Hlive)
    as (l & s1 & Hstep & [Hdone|[Hfe1 [Hdead|[Hlive1 Hless]]]]).
  - exists s1. split; [|now left]. eapply run_step; [exact Hstep|apply run_here].
  - exists s1. split; [|now right]. eapply run_step; [exact Hstep|apply run_here].
  - destruct (IH s1 ltac:(lia) (reachable_step s l s1 Hreach Hstep) Hfe1 Hlive1)
      as (s2 & Hrun & Hend).
    exists s2. split; [|exact Hend]. eapply run_step; [exact Hstep|exact Hrun].
Qed.

(** X6: along a run, while [on_submit] waits and the worker has not
    terminated, some process can always take a step, and the steps can go on
    until [on_submit] returns (the front end serves again) or the worker
    terminates: a request is never lost between the queues. *)
Theorem pending_submission_progress (s : sys) :
  reachable s ->
  fe s = FInSubmit ->
  Forall (fun w => terminated w = false) (workers s) ->
  (exists l s', step s l s') /\
  exists s',
    run s s' /\
    (fe s' = FServing \/ Exists (fun w => terminated w = true) (workers s')).
Proof.
  intros Hreach Hfe Hlive. split.
  - destruct (pending_step s Hreach Hfe Hlive) as (l & s' & Hstep & _). eauto.
  - exact (pending_run (S (distance s)) s (Nat.lt_succ_diag_r _) Hreach Hfe Hlive).
Qed.

(** X7: along a run, whenever no [on_submit] is waiting, nothing is
    pending: the response queue is empty, every request queue is empty, no
    worker is handling a request and none has terminated.  So the result that
    [on_submit] reads was put after its own request. *)
Theorem quiet_between_submissions (s : sys) :
  reachable s ->
  fe s <> FInSubmit ->
  response_queue s = [] /\
  Forall (fun w => w_requests w = [] /\ busy w = false /\ terminated w = false)
         (workers s).
Proof.
  intros Hreach Hfe.
  pose proof (flight_inv_reachable s Hreach) as Hflight.
  pose proof (answer_inv_reachable s Hreach) as Hans.
  unfold flight_inv, answer_inv in *.
  destruct (fe s); try congruence;
    (destruct Hflight as [Hall Hresp]; split; [exact Hresp|];
     rewrite Forall_forall in *; intros w Hin;
     specialize (Hall w Hin); specialize (Hans w Hin);
     unfold in_flight in Hall;
     destruct (w_requests w); [|cbn [List.length] in Hall; lia];
     destruct (busy w); [cbn in Hall; lia|];
     repeat split; exact Hans).
Qed.

End Facts.

(* ================================================================== *)
(** * The facts on the small instance *)
(* ================================================================== *)

(** A run with one GPU up to the launch of the UI, on to a click, and on to
    the worker taking the request. *)
Lemma toy_serving_reachable (create : Args -> value -> value -> value -> result unit) :
  @reachable (Toy.env_with create 1) (Toy.serving create).
Proof.
  pose proof (@reachable_initial (Toy.env_with create 1)) as R0.
  pose proof (reachable_step _ _ _ R0
                (@step_setup (Toy.env_with create 1) initial eq_refl eq_refl)) as R1.
  match type of R1 with
  | reachable ?s =>
      pose proof (reachable_step _ _ _ R1
                    (@step_start_worker (Toy.env_with create 1) s 0 0
                       eq_refl eq_refl)) as R2
  end.
  match type of R2 with
  | reachable ?s =>
      pose proof (reachable_step _ _ _ R2
                    (@step_loaded (Toy.env_with create 1) s []
                       (@mkWorker (Toy.env_with create 1) 0 WLoading []
                          (@mkW (Toy.env_with create 1) 0 []))
                       [] Toy.loaded (Toy.loaded_state create)
                       eq_refl eq_refl eq_refl)) as R3
  end.
  match type of R3 with
  | reachable ?s =>
      pose proof (reachable_step _ _ _ R3
                    (@step_front_wait (Toy.env_with create 1) s 1 eq_refl
                       (Z.le_refl 1))) as R4
  end.
  match type of R4 with
  | reachable ?s =>
      pose proof (reachable_step _ _ _ R4
                    (@step_launch (Toy.env_with create 1) s eq_refl eq_refl)) as R5
  end.
  exact R5.
Defined.

Lemma toy_in_submit_reachable (create : Args -> value -> value -> value -> result unit) :
  @reachable (Toy.env_with create 1) (Toy.in_submit create).
Proof.
  exact (reachable_step _ _ _ (toy_serving_reachable create)
           (@step_submit (Toy.env_with create 1) (Toy.serving create)
              (Toy.ui "1024x1024" 1) eq_refl)).
Defined.

Lemma toy_handling_reachable (create : Args -> value -> value -> value -> result unit) :
  @reachable (Toy.env_with create 1) (Toy.handling create).
Proof.
  pose proof (reachable_step _ _ _ (toy_in_submit_reachable create)
                (@step_enter_loop (Toy.env_with create 1) (Toy.in_submit create) []
                   (Toy.worker0 create (WAtBarrier Toy.loaded) [Toy.item "1024x1024" 1])
                   [] Toy.loaded eq_refl eq_refl eq_refl)) as R1.
  match type of R1 with
  | reachable ?s =>
      pose proof (reachable_step _ _ _ R1
                    (@step_get (Toy.env_with create 1) s []
                       (Toy.worker0 create (WIdle Toy.loaded) [Toy.item "1024x1024" 1])
                       [] Toy.loaded (Toy.item "1024x1024" 1) []
                       eq_refl eq_refl eq_refl)) as R2
  end.
  exact R2.
Defined.

(** An ordinary error in the sampler set-up is caught: the worker answers
    [ModelFailure()] and is idle again. *)
Lemma worker_catches_exceptions_witness :
  @reachable Toy.failing_env (Toy.handling Toy.failing_create_sample_fn) /\
  @step Toy.failing_env (Toy.handling Toy.failing_create_sample_fn) (LTurn 0)
        (@mkSys Toy.failing_env FInSubmit
           [@mkWorker Toy.failing_env 0 (WIdle Toy.loaded) []
              (@mkW Toy.failing_env 0
                 (trace (Toy.loaded_state Toy.failing_create_sample_fn)
                  ++ [EvPrint (Traceback (mkExc ValueError ["unknown solver"]))]))]
           [VModelFailure] (mkBarrier 2 2 true)).
Proof.
  split; [exact (toy_handling_reachable Toy.failing_create_sample_fn)|].
  destruct (@worker_catches_exceptions Toy.failing_env
              (Toy.handling Toy.failing_create_sample_fn) [] []
              (Toy.worker0 Toy.failing_create_sample_fn
                 (WBusy Toy.loaded (Toy.item "1024x1024" 1)) [])
              Toy.loaded (Toy.item "1024x1024" 1)
              (toy_handling_reachable Toy.failing_create_sample_fn)
              eq_refl eq_refl)
    as (req & Hunpack & Hcatch).
  injection Hunpack as <-.
  exact (proj2 (Hcatch (mkExc ValueError ["unknown solver"])
                  (Toy.loaded_state Toy.failing_create_sample_fn)
                  eq_refl eq_refl)).
Defined.

(** C1 as stated fails: in a run where worker 0 has taken a request, a
    [KeyboardInterrupt] raised while the request is handled is not an
    [Exception]; the [except] clause lets it through, no traceback is printed,
    nothing is put on the response queue and the worker terminates. *)
Lemma worker_interrupt_counterexample :
  @reachable Toy.interrupted_env (Toy.handling Toy.interrupted_create_sample_fn) /\
  unpack_request (Toy.item "1024x1024" 1) = Ok (Toy.request "1024x1024" 1) /\
  @handle_request Toy.interrupted_env Toy.loaded 0 (Toy.request "1024x1024" 1)
                  (Toy.loaded_state Toy.interrupted_create_sample_fn)
  = (Raise (mkExc KeyboardInterrupt []),
     Toy.loaded_state Toy.interrupted_create_sample_fn) /\
  @loop_turn Toy.interrupted_env Toy.loaded 0 (Toy.item "1024x1024" 1) (Some [])
             (Toy.loaded_state Toy.interrupted_create_sample_fn)
  = (Terminated (mkExc KeyboardInterrupt []), Some [],
     Toy.loaded_state Toy.interrupted_create_sample_fn) /\
  @step Toy.interrupted_env (Toy.handling Toy.interrupted_create_sample_fn) (LTurn 0)
        (@mkSys Toy.interrupted_env FInSubmit
           [@mkWorker Toy.interrupted_env 0
              (WTerminated (mkExc KeyboardInterrupt [])) []
              (Toy.loaded_state Toy.interrupted_create_sample_fn)]
           [] (mkBarrier 2 2 true)).
Proof.
  split; [exact (toy_handling_reachable Toy.interrupted_create_sample_fn)|].
  repeat split.
  exact (@step_turn Toy.interrupted_env
           (Toy.handling Toy.interrupted_create_sample_fn) []
           (Toy.worker0 Toy.interrupted_create_sample_fn
              (WBusy Toy.loaded (Toy.item "1024x1024" 1)) [])
           [] Toy.loaded (Toy.item "1024x1024" 1)
           (Terminated (mkExc KeyboardInterrupt [])) (Some [])
           (Toy.loaded_state Toy.interrupted_create_sample_fn)
           eq_refl eq_refl eq_refl).
Qed.

Lemma on_submit_outcome_witness :
  @on_submit [VStr "hi"] [[]] [VModelFailure]
  = (Some (Raise (mkExc RuntimeError [])), [[VTuple [VStr "hi"]]], []) /\
  @on_submit [VStr "hi"] [[]] [VImage (mkImage 7)]
  = (Some (Ok (VImage (mkImage 7))), [[VTuple [VStr "hi"]]], []).
Proof.
  split.
  - destruct (proj1 (proj2 (@on_submit_outcome (Toy.env 1) [VStr "hi"] [[]]))
                VModelFailure [])
      as (outcome & Hrun & Hfail & _).
    rewrite (Hfail eq_refl) in Hrun. exact Hrun.
  - destruct (proj1 (proj2 (@on_submit_outcome (Toy.env 1) [VStr "hi"] [[]]))
                (VImage (mkImage 7)) [])
      as (outcome & Hrun & _ & Hok).
    rewrite (Hok eq_refl) in Hrun. exact Hrun.
Defined.

Lemma request_tuple_order_witness :
  unpack_request (Toy.item "1024x1024" 1) = Ok (Toy.request "1024x1024" 1).
Proof.
  exact (proj1 (proj2 (proj2 (proj2
    (@request_tuple_order (Toy.env 1) (Toy.ui "1024x1024" 1)))))).
Defined.

Lemma startup_barrier_witness :
  @reachable (Toy.env 1) (Toy.serving Toy.create_sample_fn) /\
  Forall (fun w => arrived w = true) (workers (Toy.serving Toy.create_sample_fn)) /\
  Z.of_nat (List.length (workers (Toy.serving Toy.create_sample_fn))) = 1.
Proof.
  split; [exact (toy_serving_reachable Toy.create_sample_fn)|].
  destruct (@startup_barrier (Toy.env 1) (Toy.serving Toy.create_sample_fn)
              (toy_serving_reachable Toy.create_sample_fn))
    as (_ & _ & _ & _ & _ & Hlaunched & _).
  exact (proj2 (Hlaunched eq_refl)).
Defined.

Lemma one_request_in_flight_witness :
  @reachable (Toy.env 1) (Toy.handling Toy.create_sample_fn) /\
  Forall (fun w => (in_flight w <= 1)%nat)
         (workers (Toy.handling Toy.create_sample_fn)).
Proof.
  split; [exact (toy_handling_reachable Toy.create_sample_fn)|].
  exact (proj1 (@one_request_in_flight (Toy.env 1)
                  (Toy.handling Toy.create_sample_fn)
                  (toy_handling_reachable Toy.create_sample_fn))).
Defined.

Lemma multi_gpu_rejected_witness :
  num_gpus (@args (Toy.env 2)) > 1 /\
  @model_main_load (Toy.env 2) 0 (@mkW (Toy.env 2) 0 [])
  = (Raise (mkExc NotImplementedError ["Inference with >1 GPUs not yet supported"]),
     @mkW (Toy.env 2) 0 (trace_until_lm 0 Toy.train_args)).
Proof.
  split; [reflexivity|].
  exact (proj1 (proj2 (@multi_gpu_rejected (Toy.env 2))) eq_refl
           0 (@mkW (Toy.env 2) 0 []) Toy.train_args bfloat16
           eq_refl eq_refl eq_refl eq_refl eq_refl eq_refl).
Defined.



Lemma conditioning_invariant_witness :
  exists tok0 tok1 mask0 mask1,
    @conditioning (Toy.env 1) (VStr "hi") = Ok ([tok0; tok1], [mask0; mask1]) /\
    List.length tok0 = 4%nat /\
    firstn 2 tok1 = [1; 2] /\
    (nth 3 mask1 false = true <-> (3 < 2)%nat).
Proof.
  destruct (@conditioning_invariant (Toy.env 1) (VStr "hi") [1; 104; 105; 2] [1; 2]
              eq_refl eq_refl)
    as (tok0 & tok1 & mask0 & mask1 & Hrun & Hlen & _ & _ & _ & _ & Hnull & _ & _ & _ & Hmask).
  exists tok0, tok1, mask0, mask1.
  split; [exact Hrun|]. split; [exact Hlen|]. split; [exact Hnull|exact (Hmask 3%nat)].
Defined.


(* ================================================================== *)
(** * The command-line tables *)
(* ================================================================== *)

(** The three groups are declared alike in the two files. *)
Lemma cli_groups_mirror :
  Forall2 Cli.mirrors Cli.parse_transport_args Cli.transport_options /\
  Forall2 Cli.mirrors Cli.parse_ode_args Cli.ode_options /\
  Forall2 Cli.mirrors Cli.parse_sde_args Cli.sde_options.
Proof.
  repeat split; repeat (constructor; [repeat split|]); constructor.
Qed.

(** The [transport] command and the parser of [demo.py] accept the flags of
    their groups. *)
Lemma cli_groups_accepted :
  forallb (Cli.accepts Cli.transport) (flat_map Cli.names Cli.transport_options) = true /\
  forallb (Cli.declares Cli.demo_parser)
          (flat_map Cli.names (Cli.parse_transport_args ++ Cli.parse_ode_args)) = true.
Proof. split; reflexivity. Qed.

(** C7, at the input where the code departs from it: the function [infer_sde]
    takes the five parameters of the SDE group (and [text]), but the options
    attached to the command are [global_options]; so the command accepts none
    of the SDE flags, [--sampling-method] among them, while [demo.py] declares
    them in [parse_sde_args] and [entry_point.py] in [sde_options]. *)
Theorem infer_sde_rejects_sde_flags :
  Cli.cmd_params Cli.infer_sde
  = List.map Cli.param_name Cli.sde_options ++ ["text"%string] /\
  Cli.cmd_options Cli.infer_sde = Cli.global_options /\
  flat_map Cli.names Cli.sde_options
  = ["--sampling-method"; "--diffusion-form"; "--diffusion-norm"; "--last-step";
     "--last-step-size"]%string /\
  List.map (Cli.accepts Cli.infer_sde) (flat_map Cli.names Cli.sde_options)
  = [false; false; false; false; false] /\
  Cli.accepts Cli.infer_sde "--sampling-method" = false.
Proof. repeat split. Qed.

(* ================================================================== *)
(** * Further facts on the tables and helpers *)
(* ================================================================== *)

(** X10: the precision table of [model_main] has exactly the keys [bf16],
    [fp16] and [fp32], any other precision raises [KeyError]; every precision
    that the parsers of [demo.py] and [entry_point.py] permit is a key, so the
    lookup cannot fail on parsed arguments; the key [fp16] is permitted by
    neither parser. *)
Theorem parsed_precision_has_dtype :
  (forall p, (exists dt, dtype_of_precision p = Ok dt)
             <-> p = "bf16"%string \/ p = "fp16"%string \/ p = "fp32"%string) /\
  (forall p, (forall dt, dtype_of_precision p <> Ok dt) ->
             dtype_of_precision p = Raise (mkExc KeyError [p])) /\
  Cli.permitted Cli.demo_parser "--precision" = [Some "bf16"; Some "fp32"]%string /\
  Cli.permitted Cli.global_options "--precision"
  = Cli.permitted Cli.demo_parser "--precision" /\
  (forall p, In (Some p) (Cli.permitted Cli.demo_parser "--precision") ->
             exists dt, dtype_of_precision p = Ok dt) /\
  ~ In (Some "fp16"%string) (Cli.permitted Cli.demo_parser "--precision").
Proof.
  split; [|split; [|split; [reflexivity|split; [reflexivity|split]]]].
  - intros p. unfold dtype_of_precision.
    destruct (String.eqb_spec p "bf16") as [->|H1]; [split; eauto|].
    destruct (String.eqb_spec p "fp16") as [->|H2]; [split; eauto|].
    destruct (String.eqb_spec p "fp32") as [->|H3]; [split; eauto|].
    split; [intros [dt H]; discriminate H|intros [H|[H|H]]; congruence].
  - intros p Hnone. unfold dtype_of_precision in *.
    destruct (String.eqb p "bf16"); [now destruct (Hnone bfloat16)|].
    destruct (String.eqb p "fp16"); [now destruct (Hnone float16)|].
    destruct (String.eqb p "fp32"); [now destruct (Hnone float32)|].
    reflexivity.
  - intros p [H|[H|[]]]; injection H as <-; eexists; reflexivity.
  - intros [H|[H|[]]]; discriminate H.
Qed.

(** X13: every choice of the resolution dropdown is read without error by
    the worker, as a width and a height that are positive multiples of 16; on
    these strings the part after the last space is also the last
    white-space separated token. *)
Theorem dropdown_resolutions_parse :
  List.map (fun r => parse_resolution (VStr r)) UI.res_choices
  = [Ok (1024, 1024); Ok (512, 2048); Ok (2048, 512);
     Ok (1664, 1664); Ok (1024, 2048); Ok (2048, 1024)] /\
  Forall (fun r => exists w h,
                     parse_resolution (VStr r) = Ok (w, h) /\
                     0 < w /\ 0 < h /\ w mod 16 = 0 /\ h mod 16 = 0 /\
                     last_space_token r = last_whitespace_token r)
         UI.res_choices.
Proof.
  split; [reflexivity|].
  repeat constructor; eexists _, _; repeat split.
Qed.

Lemma argparse_accepts_in (permitted : list (option string)) (given : string) :
  Cli.argparse_accepts permitted given = true
  <-> In (Cli.none_or_str given) permitted.
Proof.
  unfold Cli.argparse_accepts. rewrite existsb_exists. split.
  - intros (c & Hin & Hc). destruct c as [a|], (Cli.none_or_str given) as [b|];
      try discriminate Hc; [|exact Hin].
    apply String.eqb_eq in Hc. now subst.
  - intros Hin. exists (Cli.none_or_str given). split; [exact Hin|].
    destruct (Cli.none_or_str given); [apply String.eqb_refl|reflexivity].
Qed.

(** X14: [none_or_str] maps the string [None], and only it, to the value
    [None], and returns every other string as it is; so with [none_or_str] as
    the type of a flag, argparse accepts the string [None] exactly when the
    value [None] is among the choices, and another string exactly when it is
    itself among them: [--loss-weight] takes [None], [velocity] or
    [likelihood], and [--last-step] takes [None], [Mean], [Tweedie] or
    [Euler]. *)
Theorem none_or_str_choices :
  (forall s, Cli.none_or_str s = None <-> s = "None"%string) /\
  (forall s v, Cli.none_or_str s = Some v <-> v = s /\ s <> "None"%string) /\
  (forall permitted s,
      Cli.argparse_accepts permitted s = true
      <-> (s = "None"%string /\ In None permitted) \/
          (s <> "None"%string /\ In (Some s) permitted)) /\
  (forall s, Cli.argparse_accepts (Cli.permitted Cli.demo_parser "--loss-weight") s = true
             <-> s = "None"%string \/ s = "velocity"%string \/ s = "likelihood"%string) /\
  (forall s, Cli.argparse_accepts (Cli.permitted Cli.parse_sde_args "--last-step") s = true
             <-> s = "None"%string \/ s = "Mean"%string \/ s = "Tweedie"%string
                 \/ s = "Euler"%string).
Proof.
  assert (Hnone : forall s, Cli.none_or_str s = None <-> s = "None"%string).
  { intros s. unfold Cli.none_or_str.
    destruct (String.eqb_spec s "None"); split; congruence. }
  assert (Hsome : forall s v, Cli.none_or_str s = Some v <-> v = s /\ s <> "None"%string).
  { intros s v. unfold Cli.none_or_str.
    destruct (String.eqb_spec s "None") as [->|Hne].
    - split; [discriminate|intros [_ H]; congruence].
    - split; [intros H; injection H as <-; now split|intros [-> _]; reflexivity]. }
  assert (Hacc : forall permitted s,
             Cli.argparse_accepts permitted s = true
             <-> (s = "None"%string /\ In None permitted) \/
                 (s <> "None"%string /\ In (Some s) permitted)).
  { intros permitted s. rewrite argparse_accepts_in.
    destruct (Cli.none_or_str s) as [v|] eqn:Hv.
    - apply Hsome in Hv as [-> Hne]. split; [auto|].
      intros [[H _]|[_ H]]; [congruence|exact H].
    - apply Hnone in Hv as ->. split; [auto|].
      intros [[_ H]|[H _]]; [exact H|congruence]. }
  split; [exact Hnone|]. split; [exact Hsome|]. split; [exact Hacc|]. split.
  - intros s. rewrite Hacc. cbn. split.
    + intros [[-> _]|[_ H]]; [auto|].
      destruct H as [H|[H|[H|[]]]]; [discriminate H|injection H as <-; auto..].
    + intros [-> | [-> | ->]]; [left|right|right]; split; auto; discriminate.
  - intros s. rewrite Hacc. cbn. split.
    + intros [[-> _]|[_ H]]; [auto|].
      destruct H as [H|[H|[H|[H|[]]]]]; [discriminate H|injection H as <-; auto..].
    + intros [-> | [-> | [-> | ->]]]; [left|right|right|right]; split; auto 6; discriminate.
Qed.

(** X15: [add_options(options)] decorates like the options written one
    above the other in the order of the list (the first outermost); an empty
    list changes nothing, and the options of two lists put end to end are
    applied list by list. *)
Theorem add_options_stacks (Fn : Type) (options more : list (Fn -> Fn)) (func : Fn) :
  Cli.add_options options func = fold_right (fun option f => option f) func options /\
  Cli.add_options [] func = func /\
  Cli.add_options (options ++ more) func
  = Cli.add_options options (Cli.add_options more func).
Proof.
  assert (H : forall l f, @Cli.add_options Fn l f
                          = fold_right (fun option f => option f) f l).
  { intros l f. unfold Cli.add_options. rewrite <- (rev_involutive l) at 2.
    symmetry. apply (fold_left_rev_right (fun (option : Fn -> Fn) f => option f)). }
  split; [apply H|]. split; [reflexivity|].
  rewrite !H. apply fold_right_app.
Qed.

(** X16: click calls the function of a command with one keyword per option
    and argument of the command; each of the three commands of
    [entry_point.py] is given a keyword that its function has no parameter
    for ([token] for [infer], the global options for [infer_sde] and
    [transport]), so each call raises [TypeError]. *)
Theorem commands_get_unexpected_keywords :
  Forall (fun c => Cli.unexpected_keywords c <> []) Cli.commands /\
  Cli.unexpected_keywords Cli.infer = ["token"]%string /\
  Cli.unexpected_keywords Cli.infer_sde
  = ["num_gpus"; "ckpt"; "ema"; "precision"; "config"; "token"]%string /\
  Cli.unexpected_keywords Cli.transport
  = ["num_gpus"; "ckpt"; "ema"; "precision"; "config"; "token"]%string.
Proof.
  split; [repeat constructor; discriminate|]. repeat split.
Qed.

(* ================================================================== *)
(** * The further facts on the small instance *)
(* ================================================================== *)

(** The runs where the worker fails to load, is interrupted, or answers a
    failed request. *)
Lemma toy_load_failed_reachable : @reachable Toy.broken_env Toy.load_failed_run.
Proof.
  pose proof (@reachable_initial Toy.broken_env) as R0.
  pose proof (reachable_step _ _ _ R0
                (@step_setup Toy.broken_env initial eq_refl eq_refl)) as R1.
  match type of R1 with
  | reachable ?s =>
      pose proof (reachable_step _ _ _ R1
                    (@step_start_worker Toy.broken_env s 0 0 eq_refl eq_refl)) as R2
  end.
  match type of R2 with
  | reachable ?s =>
      pose proof (reachable_step _ _ _ R2
                    (@step_load_failed Toy.broken_env s []
                       (@mkWorker Toy.broken_env 0 WLoading []
                          (@mkW Toy.broken_env 0 []))
                       [] (mkExc OSError ["No such file or directory"])
                       Toy.load_failed_state eq_refl eq_refl eq_refl)) as R3
  end.
  exact R3.
Defined.

Lemma toy_interrupt_step :
  @step Toy.interrupted_env (Toy.handling Toy.interrupted_create_sample_fn)
        (LTurn 0) Toy.interrupted_run.
Proof.
  exact (@step_turn Toy.interrupted_env
           (Toy.handling Toy.interrupted_create_sample_fn) []
           (Toy.worker0 Toy.interrupted_create_sample_fn
              (WBusy Toy.loaded (Toy.item "1024x1024" 1)) [])
           [] Toy.loaded (Toy.item "1024x1024" 1)
           (Terminated (mkExc KeyboardInterrupt [])) (Some [])
           (Toy.loaded_state Toy.interrupted_create_sample_fn)
           eq_refl eq_refl eq_refl).
Defined.

Lemma toy_answer_step :
  @step Toy.failing_env (Toy.handling Toy.failing_create_sample_fn)
        (LTurn 0) Toy.answered_run.
Proof.
  exact (@step_turn Toy.failing_env
           (Toy.handling Toy.failing_create_sample_fn) []
           (Toy.worker0 Toy.failing_create_sample_fn
              (WBusy Toy.loaded (Toy.item "1024x1024" 1)) [])
           [] Toy.loaded (Toy.item "1024x1024" 1)
           NextRequest (Some [VModelFailure])
           (@mkW Toy.failing_env 0
              (trace (Toy.loaded_state Toy.failing_create_sample_fn)
               ++ [EvPrint (Traceback (mkExc ValueError ["unknown solver"]))]))
           eq_refl eq_refl eq_refl).
Defined.

Lemma toy_interrupted_reachable : @reachable Toy.interrupted_env Toy.interrupted_run.
Proof.
  exact (reachable_step _ _ _
           (toy_handling_reachable Toy.interrupted_create_sample_fn)
           toy_interrupt_step).
Defined.

Lemma worker_without_response_queue_witness :
  @loop_turn Toy.failing_env Toy.loaded 1 (Toy.item "1024x1024" 1) None
             (@mkW Toy.failing_env 0 [])
  = (Terminated (mkExc AttributeError ["'NoneType' object has no attribute 'put'"]),
     None,
     @mkW Toy.failing_env 0
          [EvPrint (Traceback (mkExc ValueError ["unknown solver"]))]).
Proof.
  exact (proj2 (@worker_without_response_queue Toy.failing_env Toy.loaded 1
                  (Toy.item "1024x1024" 1) (Toy.request "1024x1024" 1)
                  (@mkW Toy.failing_env 0 []) eq_refl)
           (mkExc ValueError ["unknown solver"]) (@mkW Toy.failing_env 0 [])
           eq_refl eq_refl).
Defined.

Lemma malformed_request_ends_worker_witness :
  exists e,
    unpack_request (VTuple [VStr "hi"]) = Raise e /\
    (exc_cls e = TypeError \/ exc_cls e = ValueError) /\
    @loop_turn (Toy.env 1) Toy.loaded 0 (VTuple [VStr "hi"]) (Some [])
               (@mkW (Toy.env 1) 0 [])
    = (Terminated e, Some [], @mkW (Toy.env 1) 0 []).
Proof.
  apply (@malformed_request_ends_worker (Toy.env 1) Toy.loaded 0
           (VTuple [VStr "hi"]) (Some []) (@mkW (Toy.env 1) 0 [])).
  intros items H. injection H as <-. discriminate.
Defined.

Lemma turn_answers_or_terminates_witness :
  @reachable Toy.failing_env (Toy.handling Toy.failing_create_sample_fn) /\
  @step Toy.failing_env (Toy.handling Toy.failing_create_sample_fn)
        (LTurn 0) Toy.answered_run /\
  fe (Toy.handling Toy.failing_create_sample_fn) = FInSubmit /\
  response_queue (Toy.handling Toy.failing_create_sample_fn) = [].
Proof.
  split; [exact (toy_handling_reachable Toy.failing_create_sample_fn)|].
  split; [exact toy_answer_step|].
  destruct (@turn_answers_or_terminates Toy.failing_env
              (Toy.handling Toy.failing_create_sample_fn) Toy.answered_run 0
              (toy_handling_reachable Toy.failing_create_sample_fn)
              toy_answer_step)
    as (Hfe & _ & Hq & _).
  split; [exact Hfe|exact Hq].
Defined.

Lemma terminated_worker_blocks_submission_witness :
  @reachable Toy.interrupted_env Toy.interrupted_run /\
  fe Toy.interrupted_run = FInSubmit /\
  response_queue Toy.interrupted_run = [].
Proof.
  split; [exact toy_interrupted_reachable|].
  destruct (@terminated_worker_blocks_submission Toy.interrupted_env
              Toy.interrupted_run
              (Toy.worker0 Toy.interrupted_create_sample_fn
                 (WTerminated (mkExc KeyboardInterrupt [])) [])
              toy_interrupted_reachable (or_introl eq_refl) eq_refl)
    as (Hfe & Hq & _).
  split; [exact Hfe|exact Hq].
Defined.

Lemma load_failure_blocks_launch_witness :
  @reachable Toy.broken_env Toy.load_failed_run /\
  released (barrier_arrive (mp_barrier Toy.load_failed_run)) = false /\
  front_launched FAtBarrier = false.
Proof.
  split; [exact toy_load_failed_reachable|].
  assert (Hfailed : Exists (fun w => @load_failed Toy.broken_env w = true)
                           (workers Toy.load_failed_run)).
  { unfold Toy.load_failed_run. cbn [workers]. left. reflexivity. }
  destruct (@load_failure_blocks_launch Toy.broken_env Toy.load_failed_run
              (@mkSys Toy.broken_env FAtBarrier (workers Toy.load_failed_run)
                 (response_queue Toy.load_failed_run)
                 (barrier_arrive (mp_barrier Toy.load_failed_run)))
              toy_load_failed_reachable
              Hfailed
              (run_step _ _ _ _
                 (@step_front_wait Toy.broken_env Toy.load_failed_run 1 eq_refl
                    (Z.le_refl 1))
                 (run_here _)))
    as (_ & Hrel & Hfl & _).
  split; [exact Hrel|exact Hfl].
Defined.

Lemma pending_submission_progress_witness :
  exists l s', @step (Toy.env 1) (Toy.in_submit Toy.create_sample_fn) l s'.
Proof.
  apply (@pending_submission_progress (Toy.env 1)
           (Toy.in_submit Toy.create_sample_fn)
           (toy_in_submit_reachable Toy.create_sample_fn) eq_refl).
  unfold Toy.in_submit. cbn [workers]. constructor; [reflexivity|constructor].
Defined.

Lemma quiet_between_submissions_witness :
  response_queue (Toy.serving Toy.create_sample_fn) = [] /\
  Forall (fun w => w_requests w = [] /\ busy w = false /\ terminated w = false)
         (workers (Toy.serving Toy.create_sample_fn)).
Proof.
  apply (@quiet_between_submissions (Toy.env 1) (Toy.serving Toy.create_sample_fn)
           (toy_serving_reachable Toy.create_sample_fn)).
  discriminate.
Defined.


Lemma parallel_size_mismatch_asserts_witness :
  @model_main_load Toy.sharded_env 0 (@mkW Toy.sharded_env 0 [])
  = (Raise (mkExc AssertionError []),
     @mkW Toy.sharded_env 0 (trace_until_dit 0 Toy.sharded_train_args)).
Proof.
  apply (@parallel_size_mismatch_asserts Toy.sharded_env 0
           (@mkW Toy.sharded_env 0 []) Toy.sharded_train_args bfloat16);
    try reflexivity; try discriminate.
Defined.


Lemma build_kwargs_outcome_witness :
  @build_kwargs (Toy.env 1) Toy.tiny_loaded (Toy.request "8x8" 1) 8 8 tt []
  = Raise (mkExc ZeroDivisionError ["division by zero"]).
Proof.
  apply (proj1 (@build_kwargs_outcome (Toy.env 1) Toy.tiny_loaded
                  (Toy.request "8x8" 1) 8 8 tt [])).
  split; [reflexivity|]. cbn. lia.
Defined.

Lemma early_failure_leaves_state_witness :
  @handle_request Toy.failing_env Toy.loaded 0 (Toy.request "1024x1024" 7)
                  (@mkW Toy.failing_env 100 [])
  = (Raise (mkExc ValueError ["unknown solver"]), @mkW Toy.failing_env 100 []).
Proof.
  exact (proj1 (@early_failure_leaves_state Toy.failing_env Toy.loaded 0
                  (Toy.request "1024x1024" 7) (@mkW Toy.failing_env 100 []))
           (mkExc ValueError ["unknown solver"]) eq_refl).
Defined.
